(** * Polish amount-in-words converter of [app/app.py]

    A shallow embedding of [_declension], [_group_to_words] and
    [_number_to_words_pl] with the word tables they read, together with the
    part of Python's [decimal] module and of [str] that they call.

    Python [int] is [Z]; [str] is [string] holding the UTF-8 bytes of the
    text; a function that can raise returns a [result]. *)

From Stdlib Require Import ZArith QArith Qround Bool List Ascii String Lia.
From Stdlib Require Import DecimalString.
From Stdlib Require DecimalPos DecimalZ.
Import ListNotations.

Local Open Scope string_scope.
Local Open Scope Z_scope.

(** ** Exceptions *)

Inductive exn : Type :=
| InvalidOperation   (* decimal.InvalidOperation *)
| ValueError         (* int() of a NaN *)
| OverflowError      (* int() of an infinity *)
| IndexError.        (* list index out of range *)

Inductive result (A : Type) : Type :=
| Ok (a : A)
| Raise (e : exn).

Arguments Ok {A} a.
Arguments Raise {A} e.

Definition bind {A B : Type} (m : result A) (k : A -> result B) : result B :=
  match m with
  | Ok a => k a
  | Raise e => Raise e
  end.

Notation "'let*' x ':=' m 'in' k" := (bind m (fun x => k))
  (at level 10, x name, m at level 100, k at level 200).

(** ** Python built-ins used by the converter *)

Module Py.

(** [l[i]] on a list: a negative index counts from the end, an index out
    of range raises IndexError. *)
Definition index {A : Type} (l : list A) (i : Z) : result A :=
  let n := Z.of_nat (List.length l) in
  let j := if i <? 0 then i + n else i in
  if (j <? 0) || (n <=? j) then Raise IndexError
  else match nth_error l (Z.to_nat j) with
       | Some a => Ok a
       | None => Raise IndexError
       end.

(** The ASCII characters for which [str.isspace] holds: tab, newline,
    vertical tab, form feed, carriage return, the separators 0x1c-0x1f and
    the space.  No byte of a multi-byte UTF-8 sequence is below 0x80, so on
    text whose only white space is ASCII the byte-level test agrees with
    Python's. *)
Definition isspace (c : ascii) : bool :=
  let n := nat_of_ascii c in
  ((9 <=? n) && (n <=? 13))%nat || ((28 <=? n) && (n <=? 32))%nat.

Fixpoint lstrip (s : string) : string :=
  match s with
  | EmptyString => EmptyString
  | String c r => if isspace c then lstrip r else s
  end.

Fixpoint rstrip (s : string) : string :=
  match s with
  | EmptyString => EmptyString
  | String c r =>
      match rstrip r with
      | EmptyString => if isspace c then EmptyString else String c EmptyString
      | r' => String c r'
      end
  end.

(** [s.strip()] *)
Definition strip (s : string) : string := rstrip (lstrip s).

(** [sep.join(l)] *)
Fixpoint join (sep : string) (l : list string) : string :=
  match l with
  | [] => EmptyString
  | [x] => x
  | x :: r => x ++ sep ++ join sep r
  end.

(** [str(n)] for an int. *)
Definition str (n : Z) : string := NilZero.string_of_int (Z.to_int n).

(** [f"{n:02d}"]: the decimal digits, zero-padded after the sign to a
    total width of two.  Only a single digit is shorter than two
    characters. *)
Definition format_02d (n : Z) : string :=
  let s := str n in
  if (String.length s <? 2)%nat then "0" ++ s else s.

(** [enumerate(l)] *)
Fixpoint enumerate_from {A : Type} (i : nat) (l : list A) : list (nat * A) :=
  match l with
  | [] => []
  | x :: r => (i, x) :: enumerate_from (S i) r
  end.

Definition enumerate {A : Type} (l : list A) : list (nat * A) :=
  enumerate_from 0 l.

(** A [\uXXXX] escape of a string literal: the code point, UTF-8
    encoded. *)
Definition byte (n : Z) : ascii := ascii_of_N (Z.to_N n).

Definition u (cp : Z) : string :=
  if cp <? 128 then String (byte cp) EmptyString
  else if cp <? 2048 then
    String (byte (192 + cp / 64))
      (String (byte (128 + cp mod 64)) EmptyString)
  else
    String (byte (224 + cp / 4096))
      (String (byte (128 + (cp / 64) mod 64))
         (String (byte (128 + cp mod 64)) EmptyString)).

End Py.

(** ** The part of [decimal.Decimal] the converter calls

    The application never touches the decimal context, so the default one is
    in force: 28 significant digits, exponents up to 999999, and
    InvalidOperation trapped (it raises). *)

Module Dec.

(** A finite value is [(-1)^sign * coef * 10^exp]: the sign, the digits
    [_int] read as a number and the exponent [_exp] of the Python
    object.  [NaN] is the quiet one; a signalling NaN is left out. *)
Inductive Decimal : Type :=
| Finite (sign : bool) (coef : N) (exp : Z)
| Infinity (sign : bool)
| NaN.

Definition prec : Z := 28.
Definition Emax : Z := 999999.
Definition Etiny : Z := -999999 - prec + 1.

Definition signed (s : bool) (z : Z) : Z := if s then - z else z.

(** [len(self._int)]: the number of decimal digits of the coefficient,
    one for zero.  Dividing by ten at least once per binary digit, the
    fuel [Z.log2 c] is never exhausted before [c < 10]. *)
Fixpoint ndigits_loop (fuel : nat) (c : Z) : Z :=
  match fuel with
  | O => 1
  | S f => if c <? 10 then 1 else 1 + ndigits_loop f (c / 10)
  end.

Definition ndigits (c : N) : Z :=
  ndigits_loop (Z.to_nat (Z.log2 (Z.of_N c))) (Z.of_N c).

(** [self.adjusted()]: the exponent of the most significant digit. *)
Definition adjusted (c : N) (e : Z) : Z := e + ndigits c - 1.

(** [Decimal(n)] for an int. *)
Definition of_int (n : Z) : Decimal := Finite (n <? 0) (Z.abs_N n) 0.

(** [self._rescale(exp, ROUND_HALF_UP)] on a non-zero finite value.  With
    [exp] at or below the current exponent zeros are appended.  Otherwise
    the digits below [10^exp] are dropped and the kept part goes up by one
    when the first dropped digit is 5 or more, that is when twice the
    dropped part reaches [10^(exp - e)]. *)
Definition rescale_half_up (c : N) (e exp : Z) : N :=
  let c := Z.of_N c in
  if exp <=? e then Z.to_N (c * 10 ^ (e - exp))
  else
    let p := 10 ^ (exp - e) in
    let kept := c / p in
    let dropped := c mod p in
    Z.to_N (if p <=? 2 * dropped then kept + 1 else kept).

(** [self.quantize(Decimal(1).scaleb(exp), rounding=ROUND_HALF_UP)]; the
    converter calls it with [Decimal("0.01")], whose exponent is -2. *)
Definition quantize (d : Decimal) (exp : Z) : result Decimal :=
  match d with
  | NaN => Ok NaN
  | Infinity _ => Raise InvalidOperation
  | Finite s c e =>
      if (exp <? Etiny) || (Emax <? exp) then Raise InvalidOperation
      else if (c =? 0)%N then Ok (Finite s 0 exp)
      else if Emax <? adjusted c e then Raise InvalidOperation
      else if prec <? adjusted c e - exp + 1 then Raise InvalidOperation
      else
        let c' := rescale_half_up c e exp in
        if Emax <? adjusted c' exp then Raise InvalidOperation
        else if prec <? ndigits c' then Raise InvalidOperation
        else Ok (Finite s c' exp)
  end.

(** [int(d)]: truncation towards zero. *)
Definition to_int (d : Decimal) : result Z :=
  match d with
  | NaN => Raise ValueError
  | Infinity _ => Raise OverflowError
  | Finite s c e =>
      let c := Z.of_N c in
      Ok (signed s (if 0 <=? e then c * 10 ^ e else c / 10 ^ (- e)))
  end.

Definition is_zero (d : Decimal) : bool :=
  match d with
  | Finite _ c _ => (c =? 0)%N
  | _ => false
  end.

(** [a * b].  The product of two finite values is exact: coefficients
    multiply and exponents add.  The context then rounds a coefficient of
    more than 28 digits; the converter multiplies a coefficient of at most
    28 digits by 100, so that rounding drops at most the two zeros the
    factor appended and leaves the value as it is.  The coefficient is
    kept unrounded here. *)
Definition mul (a b : Decimal) : result Decimal :=
  match a, b with
  | NaN, _ | _, NaN => Ok NaN
  | Infinity s1, Infinity s2 => Ok (Infinity (xorb s1 s2))
  | Infinity s1, Finite s2 _ _ =>
      if is_zero b then Raise InvalidOperation else Ok (Infinity (xorb s1 s2))
  | Finite s1 _ _, Infinity s2 =>
      if is_zero a then Raise InvalidOperation else Ok (Infinity (xorb s1 s2))
  | Finite s1 c1 e1, Finite s2 c2 e2 =>
      Ok (Finite (xorb s1 s2) (c1 * c2) (e1 + e2))
  end.

(** [a % b]: the remainder has the sign of the dividend and the smaller
    of the two exponents; an integer quotient of more than 28 digits is
    DivisionImpossible, a zero divisor DivisionUndefined or
    InvalidOperation (all of them InvalidOperation for [except]). *)
Definition rem (a b : Decimal) : result Decimal :=
  match a, b with
  | NaN, _ | _, NaN => Ok NaN
  | Infinity _, _ => Raise InvalidOperation
  | Finite _ _ _, Infinity _ => Ok a
  | Finite s1 c1 e1, Finite _ c2 e2 =>
      if (c2 =? 0)%N then Raise InvalidOperation
      else
        let ideal := Z.min e1 e2 in
        let n1 := Z.of_N c1 * 10 ^ (e1 - ideal) in
        let n2 := Z.of_N c2 * 10 ^ (e2 - ideal) in
        if n1 / n2 <? 10 ^ prec
        then Ok (Finite s1 (Z.to_N (n1 mod n2)) ideal)
        else Raise InvalidOperation
  end.

(** The value of a finite decimal as a rational, for stating what the
    operations compute. *)
Definition to_Q (s : bool) (c : N) (e : Z) : Q :=
  let c := signed s (Z.of_N c) in
  if 0 <=? e then inject_Z (c * 10 ^ e) else c # Z.to_pos (10 ^ (- e)).

End Dec.

Import Dec.
(** ** The word tables and [_declension]

    The module body binds [_UNITS], [_TEENS], [_TENS], [_HUNDREDS], [_GROUPS]
    and [_declension] twice.  A Python function looks its globals up when it
    runs, so the converter reads whichever binding is current: a record of
    the bindings is its environment. *)

Record Globals : Type := {
  g_UNITS : list (list string);
  g_TEENS : list string;
  g_TENS : list string;
  g_HUNDREDS : list string;
  g_GROUPS : list (string * string * string);
  g_GROSZ_FORMS : string * string * string;
  g_declension : Z -> string * string * string -> string
}.

(** The bindings of lines 1679-1733, their non-ASCII letters written as
    [\uXXXX] escapes. *)

Module First.

Definition _UNITS : list (list string) :=
  [ [ "zero";
      "jeden";
      "dwa";
      "trzy";
      "cztery";
      "pi" ++ Py.u 0x119 ++ Py.u 0x107;
      "sze" ++ Py.u 0x15b ++ Py.u 0x107;
      "siedem";
      "osiem";
      "dziewi" ++ Py.u 0x119 ++ Py.u 0x107 ];
    [ EmptyString;
      "jeden";
      "dwa";
      "trzy";
      "cztery";
      "pi" ++ Py.u 0x119 ++ Py.u 0x107;
      "sze" ++ Py.u 0x15b ++ Py.u 0x107;
      "siedem";
      "osiem";
      "dziewi" ++ Py.u 0x119 ++ Py.u 0x107 ] ].

Definition _TEENS : list string :=
  [ "dziesi" ++ Py.u 0x119 ++ Py.u 0x107;
    "jedena" ++ Py.u 0x15b ++ "cie";
    "dwana" ++ Py.u 0x15b ++ "cie";
    "trzyna" ++ Py.u 0x15b ++ "cie";
    "czterna" ++ Py.u 0x15b ++ "cie";
    "pi" ++ Py.u 0x119 ++ "tna" ++ Py.u 0x15b ++ "cie";
    "szesna" ++ Py.u 0x15b ++ "cie";
    "siedemna" ++ Py.u 0x15b ++ "cie";
    "osiemna" ++ Py.u 0x15b ++ "cie";
    "dziewi" ++ Py.u 0x119 ++ "tna" ++ Py.u 0x15b ++ "cie" ].

Definition _TENS : list string :=
  [ EmptyString;
    EmptyString;
    "dwadzie" ++ Py.u 0x15b ++ "cia";
    "trzydzie" ++ Py.u 0x15b ++ "ci";
    "czterdzie" ++ Py.u 0x15b ++ "ci";
    "pi" ++ Py.u 0x119 ++ Py.u 0x107 ++ "dziesi" ++ Py.u 0x105 ++ "t";
    "sze" ++ Py.u 0x15b ++ Py.u 0x107 ++ "dziesi" ++ Py.u 0x105 ++ "t";
    "siedemdziesi" ++ Py.u 0x105 ++ "t";
    "osiemdziesi" ++ Py.u 0x105 ++ "t";
    "dziewi" ++ Py.u 0x119 ++ Py.u 0x107 ++ "dziesi" ++ Py.u 0x105 ++ "t" ].

Definition _HUNDREDS : list string :=
  [ EmptyString;
    "sto";
    "dwie" ++ Py.u 0x15b ++ "cie";
    "trzysta";
    "czterysta";
    "pi" ++ Py.u 0x119 ++ Py.u 0x107 ++ "set";
    "sze" ++ Py.u 0x15b ++ Py.u 0x107 ++ "set";
    "siedemset";
    "osiemset";
    "dziewi" ++ Py.u 0x119 ++ Py.u 0x107 ++ "set" ].

Definition _GROUPS : list (string * string * string) :=
  [ ("z" ++ Py.u 0x142 ++ "oty", "z" ++ Py.u 0x142 ++ "ote", "z" ++ Py.u 0x142 ++ "otych");
    ("tysi" ++ Py.u 0x105 ++ "c", "tysi" ++ Py.u 0x105 ++ "ce", "tysi" ++ Py.u 0x119 ++ "cy");
    ("milion", "miliony", "milion" ++ Py.u 0xf3 ++ "w");
    ("miliard", "miliardy", "miliard" ++ Py.u 0xf3 ++ "w") ].

Definition _GROSZ_FORMS : string * string * string :=
  ("grosz", "grosze", "groszy").

Definition _declension (number : Z) (forms : string * string * string)
  : string :=
  let '(form0, form1, form2) := forms in
  if number =? 1 then form0
  else if ((2 <=? number mod 10) && (number mod 10 <=? 4))
          && negb ((12 <=? number mod 100) && (number mod 100 <=? 14))
  then form1
  else form2.

End First.

(** The bindings of lines 2111-2131, which replace the first ones; the
    letters are written literally. *)

Module Second.

Definition _UNITS : list (list string) :=
  [ [ "zero";
      "jeden";
      "dwa";
      "trzy";
      "cztery";
      "pięć";
      "sześć";
      "siedem";
      "osiem";
      "dziewięć" ];
    [ EmptyString;
      "jeden";
      "dwa";
      "trzy";
      "cztery";
      "pięć";
      "sześć";
      "siedem";
      "osiem";
      "dziewięć" ] ].

Definition _TEENS : list string :=
  [ "dziesięć";
    "jedenaście";
    "dwanaście";
    "trzynaście";
    "czternaście";
    "piętnaście";
    "szesnaście";
    "siedemnaście";
    "osiemnaście";
    "dziewiętnaście" ].

Definition _TENS : list string :=
  [ EmptyString;
    EmptyString;
    "dwadzieścia";
    "trzydzieści";
    "czterdzieści";
    "pięćdziesiąt";
    "sześćdziesiąt";
    "siedemdziesiąt";
    "osiemdziesiąt";
    "dziewięćdziesiąt" ].

Definition _HUNDREDS : list string :=
  [ EmptyString;
    "sto";
    "dwieście";
    "trzysta";
    "czterysta";
    "pięćset";
    "sześćset";
    "siedemset";
    "osiemset";
    "dziewięćset" ].

Definition _GROUPS : list (string * string * string) :=
  [ ("złoty", "złote", "złotych");
    ("tysiąc", "tysiące", "tysięcy");
    ("milion", "miliony", "milionów");
    ("miliard", "miliardy", "miliardów") ].

Definition _declension (number : Z) (forms : string * string * string)
  : string :=
  let '(form0, form1, form2) := forms in
  if number =? 1 then form0
  else if ((2 <=? number mod 10) && (number mod 10 <=? 4))
          && negb ((12 <=? number mod 100) && (number mod 100 <=? 14))
  then form1
  else form2.

End Second.

(** The environment after line 1733, before the second bindings run. *)
Definition first_bindings : Globals := {|
  g_UNITS := First._UNITS;
  g_TEENS := First._TEENS;
  g_TENS := First._TENS;
  g_HUNDREDS := First._HUNDREDS;
  g_GROUPS := First._GROUPS;
  g_GROSZ_FORMS := First._GROSZ_FORMS;
  g_declension := First._declension
|}.

(** The environment of the loaded module, the one every call sees:
    [_GROSZ_FORMS] is bound once, everything else was bound again. *)
Definition module_globals : Globals := {|
  g_UNITS := Second._UNITS;
  g_TEENS := Second._TEENS;
  g_TENS := Second._TENS;
  g_HUNDREDS := Second._HUNDREDS;
  g_GROUPS := Second._GROUPS;
  g_GROSZ_FORMS := First._GROSZ_FORMS;
  g_declension := Second._declension
|}.

(** ** The converter *)

Section Converter.

Variable G : Globals.

(** [words.append(table[i])] *)
Definition append_from (words : list string) (table : list string) (i : Z)
  : result (list string) :=
  let* w := Py.index table i in Ok (words ++ [w])%list.

Definition _group_to_words (group : Z) (hide_one : bool) : result string :=
  if group =? 0 then Ok EmptyString
  else
    let words : list string := [] in
    let hundreds := group / 100 in
    let tens_units := group mod 100 in
    let tens := tens_units / 10 in
    let units := tens_units mod 10 in
    let* words :=
      if negb (hundreds =? 0) then append_from words (g_HUNDREDS G) hundreds
      else Ok words in
    let* words :=
      if negb (tens_units =? 0) then
        if tens_units <? 10 then
          if (tens_units =? 1) && hide_one && (hundreds =? 0) then Ok words
          else
            let* row := Py.index (g_UNITS G) 1 in
            append_from words row units
        else if tens_units <? 20 then
          append_from words (g_TEENS G) (tens_units - 10)
        else
          let* words := append_from words (g_TENS G) tens in
          if negb (units =? 0) then
            let* row := Py.index (g_UNITS G) 1 in
            append_from words row units
          else Ok words
      else Ok words in
    Ok (Py.strip (Py.join " " words)).

(** The loop [while tmp > 0: groups.append(tmp % 1000); tmp //= 1000],
    one iteration per unit of fuel. *)
Fixpoint groups_loop (fuel : nat) (tmp : Z) (groups : list Z) : list Z :=
  match fuel with
  | O => groups
  | S fuel' =>
      if 0 <? tmp
      then groups_loop fuel' (tmp / 1000) (groups ++ [tmp mod 1000])%list
      else groups
  end.

(** [tmp] loses at least one binary digit per iteration, so its binary
    length is enough fuel (see [groups_loop_enough]). *)
Definition groups_fuel (tmp : Z) : nat := S (Z.to_nat (Z.log2 tmp)).

Definition split_groups (zloty : Z) : list Z :=
  groups_loop (groups_fuel zloty) zloty [].

(** [_GROUPS[idx] if idx < len(_GROUPS) else _GROUPS[-1]] *)
Definition group_forms (idx : nat) : result (string * string * string) :=
  if (idx <? List.length (g_GROUPS G))%nat
  then Py.index (g_GROUPS G) (Z.of_nat idx)
  else Py.index (g_GROUPS G) (-1).

(** The body of [for idx, group in enumerate(groups)], threading
    [parts]. *)
Fixpoint for_groups (l : list (nat * Z)) (parts : list string)
  : result (list string) :=
  match l with
  | [] => Ok parts
  | (idx, group) :: rest =>
      if group =? 0 then for_groups rest parts
      else
        let hide_one := (0 <? idx)%nat in
        let* group_words := _group_to_words group hide_one in
        let* forms := group_forms idx in
        let part :=
          Py.strip (group_words ++ " " ++ g_declension G group forms) in
        for_groups rest (part :: parts)
  end.

(** The value of [words] after the [if zloty == 0 ... else ...]. *)
Definition whole_words (zloty : Z) : result string :=
  if zloty =? 0 then Ok ("zero z" ++ Py.u 0x142 ++ "otych")
  else
    let groups := split_groups zloty in
    let* parts := for_groups (Py.enumerate groups) [] in
    Ok (Py.strip (Py.join " " parts)).

Definition grosze_part (grosze : Z) : string :=
  Py.format_02d grosze ++ " " ++ g_declension G grosze (g_GROSZ_FORMS G).

Definition _number_to_words_pl (value : Decimal) : result string :=
  let* value := quantize value (-2) in
  let* zloty := to_int value in
  let* hundredfold := mul value (of_int 100) in
  let* remainder := rem hundredfold (of_int 100) in
  let* grosze := to_int remainder in
  let* words := whole_words zloty in
  Ok (Py.strip (words ++ ", " ++ grosze_part grosze)).

End Converter.

(** A [Decimal] literal by its sign, digits and exponent:
    [Decimal("1000.00")] is [dec false 100000 (-2)], [Decimal("-5.00")] is
    [dec true 500 (-2)]. *)
Definition dec (sign : bool) (coef : N) (exp : Z) : Decimal :=
  Finite sign coef exp.

(** The converter as the application calls it. *)
Definition amountToWords (amount : Decimal) : result string :=
  _number_to_words_pl module_globals amount.

(** ** Definitions used to state the properties *)

(** The character of a decimal digit. *)
Definition digit_char (d : Z) : ascii := ascii_of_nat (48 + Z.to_nat d).

(** A number from 0 to 99 written with exactly two digits. *)
Definition two_digits (n : Z) : string :=
  String (digit_char (n / 10)) (String (digit_char (n mod 10)) EmptyString).

(** Both renderings of a group, with and without [hide_one], exist and
    begin with no white space. *)
Definition renders (G : Globals) (group : Z) : bool :=
  let ok hide_one :=
    match _group_to_words G group hide_one with
    | Ok w => String.eqb (Py.lstrip w) w
    | Raise _ => false
    end in
  ok true && ok false.

(** The rounded amount in grosze: the coefficient of the quantized
    value. *)
Definition cents (c : N) (e : Z) : Z := Z.of_N (rescale_half_up c e (-2)).

(** Round half up as the specification words it: to the nearest integer,
    a tie going away from zero. *)
Definition round_half_up (x : Q) : Z :=
  if Qle_bool 0 x then Qfloor (x + (1 # 2)) else - Qfloor (- x + (1 # 2)).

(** The number a list of base-1000 groups stands for, least significant
    group first. *)
Definition groups_value (groups : list Z) : Z :=
  fold_right (fun group rest => group + 1000 * rest) 0 groups.

(** ** [datetime.date] *)

Module Date.

Record date : Type := mk { year : Z; month : Z; day : Z }.

Definition is_leap (y : Z) : bool :=
  (y mod 4 =? 0) && (negb (y mod 100 =? 0) || (y mod 400 =? 0)).

Definition days_in_month (y m : Z) : Z :=
  if m =? 2 then (if is_leap y then 29 else 28)
  else if (m =? 4) || (m =? 6) || (m =? 9) || (m =? 11) then 30
  else 31.

Definition MINYEAR : Z := 1.
Definition MAXYEAR : Z := 9999.

(** The arguments of the constructor go through a C [int]. *)
Definition fits_int (z : Z) : bool := (- 2 ^ 31 <=? z) && (z <? 2 ^ 31).

(** [date(y, m, d)]: OverflowError for an argument that is no C [int],
    ValueError for a year, month or day out of range. *)
Definition new (y m d : Z) : result date :=
  if negb (fits_int y && fits_int m && fits_int d) then Raise OverflowError
  else if (MINYEAR <=? y) && (y <=? MAXYEAR) && (1 <=? m) && (m <=? 12)
          && (1 <=? d) && (d <=? days_in_month y m)
  then Ok (mk y m d)
  else Raise ValueError.

(** [a < b] and [a <= b]: by year, then month, then day. *)
Definition ltb (a b : date) : bool :=
  (year a <? year b)
  || ((year a =? year b)
      && ((month a <? month b)
          || ((month a =? month b) && (day a <? day b)))).

Definition leb (a b : date) : bool := negb (ltb b a).

(** The dates the constructor can return. *)
Definition valid (d : date) : Prop := new (year d) (month d) (day d) = Ok d.

End Date.

Import Date.

(** ** Month arithmetic

    [_shift_month], [_month_bounds] and [_next_document_number] are each
    written three times in the file (lines 1489-1562, 1844-1904 and
    2004-2064), every time with the same text. *)

Definition _shift_month (year month delta : Z) : Z * Z :=
  let idx := (year * 12 + (month - 1)) + delta in
  let new_year := idx / 12 in
  let new_month := idx mod 12 + 1 in
  (new_year, new_month).

Definition _month_bounds (reference : date) (month_offset : Z)
  : result (date * date) :=
  let '(target_year, target_month) :=
    _shift_month (Date.year reference) (Date.month reference) month_offset in
  let* start := Date.new target_year target_month 1 in
  let '(next_year, next_month) := _shift_month target_year target_month 1 in
  let* end_ := Date.new next_year next_month 1 in
  Ok (start, end_).

(** ** Document numbers *)

(** The columns of an [invoices] row that the numbering reads; [number] is
    [None] for a NULL. *)
Record InvoiceRow : Type := {
  inv_document_type : string;
  inv_number : option string;
  inv_issue_date : date
}.

(** [s.split(sep)[0]] for a one-character separator: the text before its
    first occurrence, all of [s] when there is none. *)
Fixpoint split_head (sep : ascii) (s : string) : string :=
  match s with
  | EmptyString => EmptyString
  | String c r =>
      if Ascii.eqb c sep then EmptyString else String c (split_head sep r)
  end.

(** The reading of an optional minus sign and decimal digits: the part of
    [int] that reads back what [str] prints.  Used to run the numbering on
    examples. *)
Definition int_of_digits (s : string) : option Z :=
  option_map Z.of_int (NilZero.int_of_string s).

(** Two dates of one calendar month. *)
Definition same_month (a b : date) : Prop :=
  Date.year a = Date.year b /\ Date.month a = Date.month b.

Section Numbering.

(** Python's [int(s)] on a string, [None] when it raises ValueError. *)
Variable int_of_str : string -> option Z.

(** The rows of the query
    [filter(document_type == ...).filter(issue_date >= start)
     .filter(issue_date < end)], as their [number] column. *)
Definition numbers_in_month (db : list InvoiceRow) (document_type : string)
  (start end_ : date) : list (option string) :=
  map inv_number
    (filter (fun row =>
               String.eqb (inv_document_type row) document_type
               && Date.leb start (inv_issue_date row)
               && Date.ltb (inv_issue_date row) end_)
            db).

(** The body of [for (number,) in numbers], threading [highest]. *)
Fixpoint highest_number (numbers : list (option string)) (highest : Z) : Z :=
  match numbers with
  | [] => highest
  | number :: rest =>
      match number with
      | None => highest_number rest highest
      | Some EmptyString => highest_number rest highest
      | Some text =>
          match int_of_str (split_head "/" text) with
          | None => highest_number rest highest
          | Some value => highest_number rest (Z.max highest value)
          end
      end
  end.

Definition _next_document_number (db : list InvoiceRow)
  (document_type : string) (issue_date : date) : result string :=
  let* bounds := _month_bounds issue_date 0 in
  let '(start, end_) := bounds in
  let numbers := numbers_in_month db document_type start end_ in
  let highest := highest_number numbers 0 in
  let next_number := highest + 1 in
  Ok (Py.str next_number ++ "/" ++ Py.str (Date.month issue_date) ++ "/" ++
      Py.str (Date.year issue_date)).

End Numbering.

(** ** Currency formatting *)

(** [s.replace(old, new)] for a one-character [old]. *)
Fixpoint str_replace (old : ascii) (new : string) (s : string) : string :=
  match s with
  | EmptyString => EmptyString
  | String c r =>
      if Ascii.eqb c old then new ++ str_replace old new r
      else String c (str_replace old new r)
  end.

(** The thousands separator of the format specification [,]: it stands
    after a digit exactly when the digits that follow make up one or more
    full groups of three. *)
Fixpoint thousands (sep : ascii) (digits : string) : string :=
  match digits with
  | EmptyString => EmptyString
  | String c r =>
      let n := String.length r in
      if (0 <? n)%nat && (n mod 3 =? 0)%nat
      then String c (String sep (thousands sep r))
      else String c (thousands sep r)
  end.

(** [self._rescale(exp, ROUND_HALF_EVEN)], the rounding of the default
    context, which [format] applies before it prints. *)
Definition rescale_half_even (c : N) (e exp : Z) : N :=
  let c := Z.of_N c in
  if exp <=? e then Z.to_N (c * 10 ^ (e - exp))
  else
    let p := 10 ^ (exp - e) in
    let kept := c / p in
    let dropped := c mod p in
    Z.to_N (if (p <? 2 * dropped) || ((p =? 2 * dropped) && Z.odd kept)
            then kept + 1 else kept).

(** [f"{value:,.2f}"] on a [Decimal]: two digits after the point, the
    digits before it in groups of three, a minus sign for a set sign bit. *)
Definition format_comma_2f (value : Decimal) : string :=
  match value with
  | NaN => "NaN"
  | Infinity s => (if s then "-" else EmptyString) ++ "Infinity"
  | Finite s c e =>
      let coef := Z.of_N (rescale_half_even c e (-2)) in
      (if s then "-" else EmptyString) ++
      thousands "," (Py.str (coef / 100)) ++ "." ++
      Py.format_02d (coef mod 100)
  end.

(** What the formatters are handed: a [Decimal] or an [int] (a [float] is
    not covered). *)
Inductive Amount : Type :=
| AmountDecimal (d : Decimal)
| AmountInt (n : Z).

(** [value if isinstance(value, Decimal) else Decimal(str(value))] *)
Definition as_decimal (value : Amount) : Decimal :=
  match value with
  | AmountDecimal d => d
  | AmountInt n => of_int n
  end.

(** The template filter of line 148. *)
Definition pl_currency (value : option Amount) : result string :=
  match value with
  | None => Ok "0,00 zł"
  | Some value =>
      let value := as_decimal value in
      let* value := quantize value (-2) in
      let formatted :=
        str_replace "X" " "
          (str_replace "." ","
             (str_replace "," "X" (format_comma_2f value))) in
      Ok (formatted ++ " zł")
  end.

Definition _normalize_decimal (value : Amount) : result Decimal :=
  let normalized := as_decimal value in
  quantize normalized (-2).

Definition _format_currency_plain (value : Amount) : result string :=
  let* amount := _normalize_decimal value in
  Ok (str_replace "." "," (str_replace "," " " (format_comma_2f amount))).

(** [_format_currency] as bound at line 1675, on top of
    [_format_currency_plain]. *)
Definition _format_currency_on_plain (value : Amount) : result string :=
  let* plain := _format_currency_plain value in
  Ok (plain ++ " z" ++ Py.u 0x142).

(** [_format_currency] as bound at lines 1589, 1931 and 2091, three times
    the same text; the last binding is the one the module ends with. *)
Definition _format_currency (value : Amount) : result string :=
  let value := as_decimal value in
  let* value := quantize value (-2) in
  let formatted :=
    str_replace "." "," (str_replace "," " " (format_comma_2f value)) in
  Ok (formatted ++ " zł").

(** A string without the character [c]. *)
Fixpoint lacks (c : ascii) (s : string) : bool :=
  match s with
  | EmptyString => true
  | String x r => negb (Ascii.eqb x c) && lacks c r
  end.

(** ** Month names *)

Definition MONTH_NAMES_PL : list string :=
  [ "styczeń";
    "luty";
    "marzec";
    "kwiecień";
    "maj";
    "czerwiec";
    "lipiec";
    "sierpień";
    "wrzesień";
    "październik";
    "listopad";
    "grudzień" ].

Definition ascii_upper (c : ascii) : ascii :=
  let n := nat_of_ascii c in
  if ((97 <=? n) && (n <=? 122))%nat then ascii_of_nat (n - 32) else c.

Definition ascii_lower (c : ascii) : ascii :=
  let n := nat_of_ascii c in
  if ((65 <=? n) && (n <=? 90))%nat then ascii_of_nat (n + 32) else c.

Fixpoint str_lower (s : string) : string :=
  match s with
  | EmptyString => EmptyString
  | String c r => String (ascii_lower c) (str_lower r)
  end.

(** [s.capitalize()]: the first character in upper case, the others in
    lower case.  Only the letters a-z and A-Z are given their other case
    here, which is all there is to do on the month names: they begin with
    such a letter and their other letters are lower-case already. *)
Definition str_capitalize (s : string) : string :=
  match s with
  | EmptyString => EmptyString
  | String c r => String (ascii_upper c) (str_lower r)
  end.

(** [_month_name_pl], three times the same text (lines 1528, 1870 and
    2030). *)
Definition _month_name_pl (year month : Z) (capitalize : bool)
  : result string :=
  let* name := Py.index MONTH_NAMES_PL (month - 1) in
  let name := if capitalize then str_capitalize name else name in
  Ok (name ++ " " ++ Py.str year).

(** ** Prefilling the item form *)

(** The four lists of the submitted form that [_prefill_from_request] reads
    with [req.form.getlist]. *)
Record ItemForm : Type := {
  item_description : list string;
  item_quantity : list string;
  item_gross_price : list string;
  item_unit_price : list string
}.

(** The dictionary of one prefilled row. *)
Record PrefillRow : Type := {
  pf_description : string;
  pf_quantity : string;
  pf_gross_price : string
}.

(** [zip(a, b, c)]: as long as the shortest of the three. *)
Fixpoint zip3 (a b c : list string) : list (string * string * string) :=
  match a, b, c with
  | x :: a', y :: b', z :: c' => (x, y, z) :: zip3 a' b' c'
  | _, _, _ => []
  end.

(** The body of the loop, threading [prefill]. *)
Fixpoint prefill_loop (rows : list (string * string * string))
  (prefill : list PrefillRow) : list PrefillRow :=
  match rows with
  | [] => prefill
  | (description, quantity, gross_price) :: rest =>
      match description with
      | EmptyString => prefill_loop rest prefill
      | _ =>
          prefill_loop rest
            (prefill ++ [ {| pf_description := description;
                             pf_quantity := quantity;
                             pf_gross_price := gross_price |} ])%list
      end
  end.

(** [_prefill_from_request], three times the same text (lines 1389, 1791
    and 1951). *)
Definition _prefill_from_request (form : ItemForm) : list PrefillRow :=
  let descriptions := item_description form in
  let quantities := item_quantity form in
  let gross_prices :=
    match item_gross_price form with
    | [] => item_unit_price form
    | prices => prices
    end in
  prefill_loop (zip3 descriptions quantities gross_prices) [].

(** The rendering of a group with nothing suppressed exists and is not
    empty. *)
Definition speaks (G : Globals) (group : Z) : bool :=
  match _group_to_words G group false with
  | Ok (String _ _) => true
  | _ => false
  end.

(** * Properties *)

(** ** The built-ins on small inputs *)

Example str_examples :
  Py.str 42 = "42" /\ Py.str (-5) = "-5" /\ Py.str 0 = "0".
Proof. repeat split. Qed.

Example format_02d_examples :
  Py.format_02d 5 = "05" /\ Py.format_02d 89 = "89" /\
  Py.format_02d (-5) = "-5" /\ Py.format_02d (-50) = "-50".
Proof. repeat split. Qed.

Example escape_examples : Py.u 0x142 = "ł" /\ Py.u 0xf3 = "ó".
Proof. repeat split. Qed.

Example strip_examples :
  Py.strip "  sto  jeden " = "sto  jeden" /\ Py.strip " milion" = "milion" /\
  Py.join " " ["a"; "b"; "c"] = "a b c".
Proof. repeat split. Qed.

Example index_examples :
  Py.index [10; 20; 30] 1 = Ok 20 /\ Py.index [10; 20; 30] (-1) = Ok 30 /\
  Py.index [10; 20; 30] 3 = Raise IndexError /\
  Py.index [10; 20; 30] (-4) = Raise IndexError.
Proof. repeat split. Qed.

Example quantize_examples :
  quantize (dec false 10005 (-3)) (-2) = Ok (dec false 1001 (-2)) /\
  quantize (dec false 10004 (-3)) (-2) = Ok (dec false 1000 (-2)) /\
  quantize (dec true 10005 (-3)) (-2) = Ok (dec true 1001 (-2)) /\
  quantize (dec false 7 0) (-2) = Ok (dec false 700 (-2)) /\
  quantize (dec false 4 (-3)) (-2) = Ok (dec false 0 (-2)) /\
  quantize (dec false 1 26) (-2) = Raise InvalidOperation.
Proof. repeat split. Qed.

(** ** The error monad *)

Lemma bind_Ok {A B : Type} (a : A) (k : A -> result B) : bind (Ok a) k = k a.
Proof. reflexivity. Qed.

Lemma bind_Raise {A B : Type} (e : exn) (k : A -> result B) :
  bind (Raise e) k = Raise e.
Proof. reflexivity. Qed.

(** ** Digit counting and the grouping loop never run out of fuel *)

Lemma pow2_succ (f : nat) : 2 ^ Z.of_nat (S f) = 2 * 2 ^ Z.of_nat f.
Proof. rewrite Nat2Z.inj_succ. apply Z.pow_succ_r. lia. Qed.

Lemma pow2_pos (f : nat) : 0 < 2 ^ Z.of_nat f.
Proof. apply Z.pow_pos_nonneg; lia. Qed.

Lemma log2_upper (z : Z) : z < 2 * 2 ^ Z.of_nat (Z.to_nat (Z.log2 z)).
Proof.
  pose proof (Z.log2_nonneg z) as Hn.
  rewrite Z2Nat.id by exact Hn.
  destruct (Z_lt_le_dec 0 z) as [Hz | Hz].
  - pose proof (Z.log2_spec z Hz) as [_ Hu].
    rewrite Z.pow_succ_r in Hu by exact Hn. exact Hu.
  - pose proof (Z.pow_pos_nonneg 2 (Z.log2 z)). lia.
Qed.

Lemma ndigits_loop_bound (fuel : nat) :
  forall c, 0 <= c < 2 * 2 ^ Z.of_nat fuel -> c < 10 ^ ndigits_loop fuel c.
Proof.
  induction fuel as [| f IH]; intros c Hc.
  - simpl in *. lia.
  - cbn [ndigits_loop]. destruct (c <? 10) eqn:E.
    + apply Z.ltb_lt in E. simpl. lia.
    + apply Z.ltb_ge in E. rewrite pow2_succ in Hc.
      assert (Hd : 0 <= c / 10 < 2 * 2 ^ Z.of_nat f).
      { split; [apply Z.div_pos; lia |].
        apply Z.div_lt_upper_bound; lia. }
      specialize (IH _ Hd).
      assert (Hn : 0 <= ndigits_loop f (c / 10)).
      { clear. generalize (c / 10).
        induction f; intros z; cbn [ndigits_loop]; [lia |].
        destruct (z <? 10); [lia |]. specialize (IHf (z / 10)). lia. }
      replace (1 + ndigits_loop f (c / 10)) with (Z.succ (ndigits_loop f (c / 10)))
        by lia.
      rewrite Z.pow_succ_r by exact Hn.
      pose proof (Z.div_mod c 10 ltac:(lia)).
      pose proof (Z.mod_pos_bound c 10 ltac:(lia)). lia.
  Qed.

(** A coefficient is below ten to the number of its digits. *)
Lemma ndigits_bound (c : N) : Z.of_N c < 10 ^ ndigits c.
Proof.
  unfold ndigits. apply ndigits_loop_bound. split; [lia | apply log2_upper].
Qed.

Lemma groups_loop_nonpos (fuel : nat) (tmp : Z) (groups : list Z) :
  tmp <= 0 -> groups_loop fuel tmp groups = groups.
Proof.
  intros H. destruct fuel; [reflexivity |]. simpl.
  destruct (0 <? tmp) eqn:E; [apply Z.ltb_lt in E; lia | reflexivity].
Qed.

(** Any two amounts of fuel above the binary length of [tmp] give the same
    groups: the loop has stopped by itself before either is used up. *)
Lemma groups_loop_enough (f1 : nat) :
  forall f2 tmp groups,
    tmp < 2 ^ Z.of_nat f1 -> tmp < 2 ^ Z.of_nat f2 ->
    groups_loop f1 tmp groups = groups_loop f2 tmp groups.
Proof.
  induction f1 as [| f1 IH]; intros f2 tmp groups H1 H2.
  - simpl in H1. rewrite !groups_loop_nonpos by lia. reflexivity.
  - destruct f2 as [| f2].
    + simpl in H2. rewrite !groups_loop_nonpos by lia. reflexivity.
    + cbn [groups_loop]. destruct (0 <? tmp) eqn:E; [| reflexivity].
      apply Z.ltb_lt in E. rewrite pow2_succ in H1, H2.
      apply IH; apply Z.div_lt_upper_bound; lia.
Qed.

Lemma groups_loop_acc (fuel : nat) :
  forall tmp groups,
    groups_loop fuel tmp groups = (groups ++ groups_loop fuel tmp [])%list.
Proof.
  induction fuel as [| f IH]; intros tmp groups.
  - simpl. now rewrite app_nil_r.
  - cbn [groups_loop]. destruct (0 <? tmp).
    + rewrite IH. rewrite (IH _ ([] ++ _)%list). now rewrite <- app_assoc.
    + now rewrite app_nil_r.
Qed.

(** The loop as the source reads: while [zloty] is positive, the next
    group is [zloty % 1000] and the loop goes on with [zloty // 1000]. *)
Lemma split_groups_eq (zloty : Z) :
  split_groups zloty =
  if 0 <? zloty then zloty mod 1000 :: split_groups (zloty / 1000) else [].
Proof.
  destruct (0 <? zloty) eqn:E.
  - unfold split_groups. unfold groups_fuel at 1. cbn [groups_loop].
    rewrite E. apply Z.ltb_lt in E. rewrite groups_loop_acc. cbn [app].
    f_equal. apply groups_loop_enough.
    + pose proof (log2_upper zloty). apply Z.div_lt_upper_bound; lia.
    + unfold groups_fuel. rewrite pow2_succ. apply log2_upper.
  - unfold split_groups, groups_fuel. cbn [groups_loop]. now rewrite E.
Qed.

Lemma groups_loop_range (fuel : nat) :
  forall tmp groups,
    Forall (fun g => 0 <= g < 1000) groups ->
    Forall (fun g => 0 <= g < 1000) (groups_loop fuel tmp groups).
Proof.
  induction fuel as [| f IH]; intros tmp groups H; [exact H |].
  cbn [groups_loop]. destruct (0 <? tmp); [| exact H].
  apply IH. apply Forall_app. split; [exact H |].
  constructor; [| constructor]. apply Z.mod_pos_bound. lia.
Qed.

(** Every group is a number from 0 to 999. *)
Lemma split_groups_range (zloty : Z) :
  Forall (fun g => 0 <= g < 1000) (split_groups zloty).
Proof. apply groups_loop_range. constructor. Qed.


(** ** [strip] on the strings the converter builds *)

Lemma lstrip_length (s : string) :
  (String.length (Py.lstrip s) <= String.length s)%nat.
Proof.
  induction s as [| c r IH]; simpl; [lia |].
  destruct (Py.isspace c); simpl; lia.
Qed.

Lemma lstrip_lstrip (s : string) : Py.lstrip (Py.lstrip s) = Py.lstrip s.
Proof.
  induction s as [| c r IH]; simpl; [reflexivity |].
  destruct (Py.isspace c) eqn:E; [exact IH |]. simpl. now rewrite E.
Qed.

Lemma lstrip_rstrip (s : string) :
  Py.lstrip s = s -> Py.lstrip (Py.rstrip s) = Py.rstrip s.
Proof.
  destruct s as [| c r]; [reflexivity |]. intros H.
  destruct (Py.isspace c) eqn:E.
  - exfalso. simpl in H. rewrite E in H.
    pose proof (lstrip_length r) as L. rewrite H in L. simpl in L. lia.
  - simpl. destruct (Py.rstrip r); rewrite ?E; simpl; now rewrite E.
Qed.

(** A stripped string has no leading white space left. *)
Lemma lstrip_strip (s : string) : Py.lstrip (Py.strip s) = Py.strip s.
Proof. apply lstrip_rstrip, lstrip_lstrip. Qed.

Lemma lstrip_app (w b : string) :
  Py.lstrip b = b -> Py.lstrip (w ++ b) = Py.lstrip w ++ b.
Proof.
  intros H. induction w as [| c r IH]; simpl; [exact H |].
  destruct (Py.isspace c); [exact IH | reflexivity].
Qed.

Lemma rstrip_app (a b : string) :
  b <> EmptyString -> Py.rstrip b = b -> Py.rstrip (a ++ b) = a ++ b.
Proof.
  intros Hne H. induction a as [| c r IH]; simpl; [exact H |].
  rewrite IH. destruct (r ++ b) eqn:E; [| reflexivity].
  destruct r; simpl in E; [contradiction | discriminate].
Qed.

(** Stripping [w ++ b] only touches the front of [w] when [b] neither
    begins nor ends with white space. *)
Lemma strip_app (w b : string) :
  b <> EmptyString -> Py.lstrip b = b -> Py.rstrip b = b ->
  Py.strip (w ++ b) = Py.lstrip w ++ b.
Proof.
  intros Hne Hl Hr. unfold Py.strip.
  rewrite lstrip_app by exact Hl. now apply rstrip_app.
Qed.

(** ** Quantization and the split into zloty and grosze *)

Lemma pow10_pos (k : Z) : 0 <= k -> 0 < 10 ^ k.
Proof. intros H. apply Z.pow_pos_nonneg; lia. Qed.

Lemma rescale_half_up_zero (e exp : Z) : rescale_half_up 0 e exp = 0%N.
Proof.
  unfold rescale_half_up. destruct (exp <=? e) eqn:E; [reflexivity |].
  apply Z.leb_gt in E. pose proof (pow10_pos (exp - e) ltac:(lia)) as Hp.
  change (Z.of_N 0) with 0. rewrite Z.div_0_l, Z.mod_0_l by lia.
  destruct (10 ^ (exp - e) <=? 2 * 0) eqn:F; [| reflexivity].
  apply Z.leb_le in F. lia.
Qed.

(** What a successful quantization to cents returns: the sign is kept, the
    exponent is -2, the coefficient is the rounded one and has at most 28
    digits. *)
Lemma quantize_cents_inv (s : bool) (c : N) (e : Z) (q : Decimal) :
  quantize (Finite s c e) (-2) = Ok q ->
  q = Finite s (rescale_half_up c e (-2)) (-2) /\
  ndigits (rescale_half_up c e (-2)) <= prec.
Proof.
  unfold quantize.
  replace ((-2 <? Etiny) || (Emax <? -2)) with false by reflexivity.
  destruct (c =? 0)%N eqn:Ec.
  - apply N.eqb_eq in Ec. subst c. rewrite rescale_half_up_zero.
    intros H. injection H as <-. split; [reflexivity |]. now vm_compute.
  - destruct (Emax <? adjusted c e); [discriminate |].
    destruct (prec <? adjusted c e - -2 + 1); [discriminate |].
    cbv zeta.
    destruct (Emax <? adjusted (rescale_half_up c e (-2)) (-2));
      [discriminate |].
    destruct (prec <? ndigits (rescale_half_up c e (-2))) eqn:Ed;
      [discriminate |].
    intros H. injection H as <-. split; [reflexivity |].
    now apply Z.ltb_ge in Ed.
Qed.

(** Quantizing a value that already has two fractional digits and fits the
    context returns it unchanged. *)
Lemma quantize_cents_fixed (s : bool) (c : N) :
  ndigits c <= prec ->
  quantize (Finite s c (-2)) (-2) = Ok (Finite s c (-2)).
Proof.
  intros Hd. unfold quantize.
  replace ((-2 <? Etiny) || (Emax <? -2)) with false by reflexivity.
  destruct (c =? 0)%N eqn:Ec.
  - apply N.eqb_eq in Ec. now subst c.
  - assert (Hr : rescale_half_up c (-2) (-2) = c).
    { unfold rescale_half_up. rewrite Z.leb_refl, Z.sub_diag.
      change (10 ^ 0) with 1. rewrite Z.mul_1_r. apply N2Z.id. }
    cbv zeta. rewrite Hr. unfold adjusted, prec, Emax in *.
    destruct (999999 <? -2 + ndigits c - 1) eqn:E1;
      [apply Z.ltb_lt in E1; lia |].
    destruct (28 <? -2 + ndigits c - 1 - -2 + 1) eqn:E2;
      [apply Z.ltb_lt in E2; lia |].
    destruct (28 <? ndigits c) eqn:E3; [apply Z.ltb_lt in E3; lia |].
    reflexivity.
Qed.

Lemma signed_xorb_false (s : bool) : xorb s false = s.
Proof. now destruct s. Qed.

(** [int(value)] of a quantized value is its whole part. *)
Lemma to_int_cents (s : bool) (c : N) :
  to_int (Finite s c (-2)) = Ok (signed s (Z.of_N c / 100)).
Proof. reflexivity. Qed.

(** [int((value * 100) % 100)] of a quantized value is its last two digits,
    with the sign of the value. *)
Lemma grosze_cents (s : bool) (c : N) :
  ndigits c <= prec ->
  (let* hundredfold := mul (Finite s c (-2)) (of_int 100) in
   let* remainder := rem hundredfold (of_int 100) in
   to_int remainder) = Ok (signed s (Z.of_N c mod 100)).
Proof.
  intros Hd.
  change (of_int 100) with (Finite false 100 0).
  cbn [mul bind]. rewrite signed_xorb_false.
  cbn [rem]. change (100 =? 0)%N with false. cbv iota.
  change (Z.min (-2 + 0) 0) with (-2).
  change (-2 + 0 - -2) with 0. change (0 - -2) with 2.
  change (Z.of_N 100 * 10 ^ 2) with 10000.
  change (10 ^ 0) with 1. rewrite Z.mul_1_r.
  cbv zeta. rewrite N2Z.inj_mul. change (Z.of_N 100) with 100.
  pose proof (ndigits_bound c) as Hb.
  assert (Hp : 10 ^ ndigits c <= 10 ^ prec).
  { apply Z.pow_le_mono_r; [lia |]. exact Hd. }
  assert (Hq : Z.of_N c * 100 / 10000 < 10 ^ prec).
  { apply Z.div_lt_upper_bound; [lia |]. lia. }
  apply Z.ltb_lt in Hq. rewrite Hq. cbn [bind to_int].
  f_equal. f_equal.
  assert (Hm : (Z.of_N c * 100) mod 10000 = 100 * (Z.of_N c mod 100)).
  { change 10000 with (100 * 100). rewrite (Z.mul_comm (Z.of_N c) 100).
    rewrite Z.mul_mod_distr_l by lia. reflexivity. }
  rewrite Hm. rewrite Z2N.id.
  - change (0 <=? -2) with false. cbv iota. change (10 ^ (- -2)) with 100.
    rewrite Z.mul_comm. apply Z.div_mul. lia.
  - pose proof (Z.mod_pos_bound (Z.of_N c) 100 ltac:(lia)). lia.
Qed.

(** ** The converter never indexes a table out of range *)


Lemma renders_all :
  forallb (renders module_globals) (map Z.of_nat (seq 1 999)) = true.
Proof. vm_compute. reflexivity. Qed.

(** Every group from 1 to 999 has a rendering, which carries no leading
    white space. *)
Lemma group_to_words_total (group : Z) (hide_one : bool) :
  0 < group < 1000 ->
  exists w, _group_to_words module_globals group hide_one = Ok w /\
            Py.lstrip w = w.
Proof.
  intros Hg.
  assert (Hin : In group (map Z.of_nat (seq 1 999))).
  { apply in_map_iff. exists (Z.to_nat group). split; [lia |].
    apply in_seq. lia. }
  pose proof (proj1 (forallb_forall _ _) renders_all _ Hin) as Hr.
  unfold renders in Hr. apply andb_prop in Hr as [Ht Hf].
  destruct hide_one.
  - destruct (_group_to_words module_globals group true) as [w |];
      [| discriminate]. exists w. split; [reflexivity |].
    now apply String.eqb_eq.
  - destruct (_group_to_words module_globals group false) as [w |];
      [| discriminate]. exists w. split; [reflexivity |].
    now apply String.eqb_eq.
Qed.

(** Past the table the last entry, the "miliard" family, is used. *)
Lemma group_forms_beyond (idx : nat) :
  (4 <= idx)%nat ->
  group_forms module_globals idx = Ok ("miliard", "miliardy", "miliardów").
Proof.
  intros H. unfold group_forms.
  change (List.length (g_GROUPS module_globals)) with 4%nat.
  destruct (idx <? 4)%nat eqn:E; [apply Nat.ltb_lt in E; lia |].
  reflexivity.
Qed.

Lemma group_forms_total (idx : nat) :
  exists forms, group_forms module_globals idx = Ok forms.
Proof.
  destruct (le_lt_dec 4 idx) as [H | H].
  - eexists. now apply group_forms_beyond.
  - do 4 (destruct idx as [| idx]; [eexists; reflexivity |]). lia.
Qed.

Lemma for_groups_total (l : list (nat * Z)) :
  forall parts,
    Forall (fun ig => 0 <= snd ig < 1000) l ->
    exists parts', for_groups module_globals l parts = Ok parts'.
Proof.
  induction l as [| [idx group] rest IH]; intros parts H.
  - eexists. reflexivity.
  - inversion H as [| ? ? Hg Hrest]; subst. cbn [snd] in Hg.
    cbn [for_groups]. destruct (group =? 0) eqn:E; [now apply IH |].
    apply Z.eqb_neq in E.
    destruct (group_to_words_total group (0 <? idx)%nat ltac:(lia))
      as [w [Hw _]].
    destruct (group_forms_total idx) as [forms Hf].
    rewrite Hw, Hf. cbn [bind]. now apply IH.
Qed.

Lemma enumerate_from_range (l : list Z) :
  forall i,
    Forall (fun g => 0 <= g < 1000) l ->
    Forall (fun ig : nat * Z => 0 <= snd ig < 1000) (Py.enumerate_from i l).
Proof.
  induction l as [| g r IH]; intros i H; [constructor |].
  inversion H; subst. constructor; [assumption | now apply IH].
Qed.

(** The whole-amount words always exist and carry no leading white space;
    they are "zero złotych" for 0 and empty below 0, where the grouping loop
    does not run at all. *)
Lemma whole_words_total (zloty : Z) :
  exists w, whole_words module_globals zloty = Ok w /\
            Py.lstrip w = w /\
            (zloty = 0 -> w = "zero złotych") /\
            (zloty < 0 -> w = EmptyString).
Proof.
  unfold whole_words. destruct (zloty =? 0) eqn:E.
  - apply Z.eqb_eq in E. eexists. split; [reflexivity |].
    repeat split; intros; try reflexivity; lia.
  - apply Z.eqb_neq in E.
    destruct (Z_lt_le_dec zloty 0) as [Hneg | Hpos].
    + rewrite split_groups_eq.
      destruct (0 <? zloty) eqn:F; [apply Z.ltb_lt in F; lia |].
      eexists. split; [reflexivity |].
      repeat split; intros; try reflexivity; lia.
    + destruct (for_groups_total (Py.enumerate (split_groups zloty)) [])
        as [parts Hp].
      { apply enumerate_from_range, split_groups_range. }
      rewrite Hp. cbn [bind]. eexists. split; [reflexivity |].
      split; [apply lstrip_strip |]. split; intros; lia.
Qed.

(** ** The shape of the phrase *)

Lemma bind_inv {A B : Type} (m : result A) (k : A -> result B) (b : B) :
  bind m k = Ok b -> exists a, m = Ok a /\ k a = Ok b.
Proof. destruct m as [a | e]; [| discriminate]. intros H. now exists a. Qed.

Lemma string_app_assoc (a b c : string) : (a ++ b) ++ c = a ++ b ++ c.
Proof. induction a as [| x a IH]; simpl; [reflexivity | now rewrite IH]. Qed.

Lemma declension_cases (number : Z) (form0 form1 form2 : string) :
  Second._declension number (form0, form1, form2) = form0 \/
  Second._declension number (form0, form1, form2) = form1 \/
  Second._declension number (form0, form1, form2) = form2.
Proof.
  unfold Second._declension. destruct (number =? 1); [now left |].
  match goal with |- context [if ?b then _ else _] => destruct b end;
    [right; now left | right; now right].
Qed.

(** The comma and the subunit clause begin with the comma and end with the
    last letter of the noun, so the final [strip] leaves them alone. *)
Lemma grosze_part_tail (grosze : Z) :
  Py.rstrip (", " ++ grosze_part module_globals grosze) =
  ", " ++ grosze_part module_globals grosze.
Proof.
  unfold grosze_part. cbn [g_declension g_GROSZ_FORMS module_globals].
  unfold First._GROSZ_FORMS.
  rewrite <- !string_app_assoc.
  destruct (declension_cases grosze "grosz" "grosze" "groszy")
    as [-> | [-> | ->]];
    (apply rstrip_app; [discriminate | reflexivity]).
Qed.


(** Whenever the amount can be quantized the converter returns the
    whole-amount words of [cents / 100], a comma and a space, and the subunit
    clause of [cents % 100], both with the sign of the amount. *)
Lemma number_to_words_finite (s : bool) (c : N) (e : Z) (q : Decimal) :
  quantize (Finite s c e) (-2) = Ok q ->
  exists w,
    whole_words module_globals (signed s (cents c e / 100)) = Ok w /\
    Py.lstrip w = w /\
    amountToWords (Finite s c e) =
    Ok (w ++ ", " ++ grosze_part module_globals (signed s (cents c e mod 100))).
Proof.
  intros H. destruct (quantize_cents_inv _ _ _ _ H) as [Hq Hd].
  destruct (whole_words_total (signed s (cents c e / 100)))
    as [w [Hw [Hl _]]].
  exists w. split; [exact Hw |]. split; [exact Hl |].
  unfold amountToWords, _number_to_words_pl. rewrite H. cbn [bind].
  subst q. rewrite to_int_cents. cbn [bind].
  pose proof (grosze_cents s _ Hd) as Hg.
  apply bind_inv in Hg as [h [Hh Hg]].
  apply bind_inv in Hg as [r [Hr Hg]].
  rewrite Hh. cbn [bind]. rewrite Hr. cbn [bind]. rewrite Hg. cbn [bind].
  fold (cents c e). rewrite Hw. cbn [bind]. f_equal.
  rewrite strip_app.
  - now rewrite Hl.
  - discriminate.
  - reflexivity.
  - apply grosze_part_tail.
Qed.

(** When quantization raises, the converter raises the same exception. *)
Lemma number_to_words_raises (G : Globals) (d : Decimal) (x : exn) :
  quantize d (-2) = Raise x -> _number_to_words_pl G d = Raise x.
Proof. intros H. unfold _number_to_words_pl. now rewrite H. Qed.

(** ** Rounding *)


Lemma half_up_div (c p : Z) :
  0 <= c -> 0 < p ->
  (2 * c + p) / (2 * p) = c / p + (if p <=? 2 * (c mod p) then 1 else 0).
Proof.
  intros Hc Hp.
  pose proof (Z.div_mod c p ltac:(lia)) as Hdm.
  pose proof (Z.mod_pos_bound c p Hp) as Hr.
  destruct (p <=? 2 * (c mod p)) eqn:E.
  - apply Z.leb_le in E. symmetry.
    apply Z.div_unique with (r := 2 * (c mod p) - p); lia.
  - apply Z.leb_gt in E. symmetry.
    apply Z.div_unique with (r := 2 * (c mod p) + p); lia.
Qed.

(** [n / d * 100], rounded half up, for a non-negative fraction. *)
Lemma round_half_up_frac (n : Z) (d : positive) :
  0 <= n ->
  round_half_up ((n # d) * inject_Z 100) = (200 * n + Zpos d) / (2 * Zpos d).
Proof.
  intros Hn. unfold round_half_up.
  assert (Hle : Qle_bool 0 ((n # d) * inject_Z 100) = true).
  { apply Qle_bool_iff. unfold Qle. simpl. lia. }
  rewrite Hle. unfold Qfloor, Qplus, Qmult, inject_Z. cbn [Qnum Qden].
  rewrite !Pos2Z.inj_mul. f_equal; lia.
Qed.

(** The quantized coefficient of a non-negative amount is the amount times
    one hundred, rounded half up. *)
Lemma cents_round_half_up (c : N) (e : Z) :
  cents c e = round_half_up (to_Q false c e * inject_Z 100).
Proof.
  unfold cents, rescale_half_up, to_Q, signed.
  pose proof (N2Z.is_nonneg c) as Hc. set (z := Z.of_N c) in *.
  destruct (0 <=? e) eqn:E0.
  - apply Z.leb_le in E0.
    destruct (-2 <=? e) eqn:E2; [| apply Z.leb_gt in E2; lia].
    pose proof (pow10_pos e E0) as Hp.
    unfold inject_Z at 1. rewrite round_half_up_frac by nia.
    replace (e - -2) with (e + 2) by lia.
    rewrite Z.pow_add_r by lia. change (10 ^ 2) with 100.
    rewrite Z2N.id by nia.
    apply Z.div_unique with (r := 1); lia.
  - apply Z.leb_gt in E0.
    pose proof (pow10_pos (- e) ltac:(lia)) as Hp.
    rewrite round_half_up_frac by exact Hc.
    rewrite Z2Pos.id by exact Hp.
    destruct (-2 <=? e) eqn:E2.
    + apply Z.leb_le in E2. rewrite Z2N.id.
      2:{ pose proof (pow10_pos (e - -2) ltac:(lia)). nia. }
      assert (He : 10 ^ (e - -2) * 10 ^ (- e) = 100).
      { rewrite <- Z.pow_add_r by lia. now replace (e - -2 + - e) with 2 by lia. }
      set (a := 10 ^ (e - -2)) in *. set (b := 10 ^ (- e)) in *.
      apply Z.div_unique with (r := b); nia.
    + apply Z.leb_gt in E2.
      pose proof (pow10_pos (-2 - e) ltac:(lia)) as Hq.
      assert (He : 10 ^ (- e) = 100 * 10 ^ (-2 - e)).
      { replace (- e) with (2 + (-2 - e)) by lia.
        now rewrite Z.pow_add_r by lia. }
      rewrite He. set (p := 10 ^ (-2 - e)) in *.
      replace (200 * z + 100 * p) with ((2 * z + p) * 100) by lia.
      replace (2 * (100 * p)) with ((2 * p) * 100) by lia.
      rewrite Z.div_mul_cancel_r by lia.
      rewrite half_up_div by lia.
      pose proof (Z.div_pos z p Hc Hq).
      rewrite Z2N.id; [destruct (p <=? 2 * (z mod p)); lia |].
      destruct (p <=? 2 * (z mod p)); lia.
Qed.

(** ** The two sets of bindings *)

Lemma first_bindings_eq : first_bindings = module_globals.
Proof. reflexivity. Qed.

(** C10: the word tables [_UNITS], [_TEENS], [_TENS], [_HUNDREDS], [_GROUPS]
    and the function [_declension] are bound twice; the second bindings, the
    ones in force when [_number_to_words_pl] runs, are equal to the first
    element by element, and the converter returns the same result under
    either set. *)
Theorem rebound_tables_agree :
  Second._UNITS = First._UNITS /\
  Second._TEENS = First._TEENS /\
  Second._TENS = First._TENS /\
  Second._HUNDREDS = First._HUNDREDS /\
  Second._GROUPS = First._GROUPS /\
  (forall number forms,
      Second._declension number forms = First._declension number forms) /\
  (forall group hide_one,
      _group_to_words module_globals group hide_one =
      _group_to_words first_bindings group hide_one) /\
  (forall value,
      _number_to_words_pl module_globals value =
      _number_to_words_pl first_bindings value).
Proof.
  repeat split; try reflexivity; intros; now rewrite first_bindings_eq.
Qed.

(** ** Declension *)

(** C7: for every integer [n] (in particular every non-negative one) and
    every triple of forms, [_declension] returns the singular form when
    [n = 1], the plural-few form when [n <> 1], [n mod 10] is in [2,4] and
    [n mod 100] is not in [12,14], and the plural-many form otherwise; with
    three distinct forms each of these is an equivalence.  Hence the phrase
    for 22.00 has "złote" and the phrase for 12.00 has "złotych" as the last
    word of the whole-amount clause. *)
Theorem declension_rule (n : Z) (singular few many : string) :
  let form := Second._declension n (singular, few, many) in
  let is_few := (2 <= n mod 10 <= 4) /\ ~ (12 <= n mod 100 <= 14) in
  (n = 1 -> form = singular) /\
  (n <> 1 -> is_few -> form = few) /\
  (n <> 1 -> ~ is_few -> form = many) /\
  (singular <> few -> singular <> many -> few <> many ->
   (form = singular <-> n = 1) /\
   (form = few <-> n <> 1 /\ is_few) /\
   (form = many <-> n <> 1 /\ ~ is_few)) /\
  amountToWords (dec false 2200 (-2)) = Ok "dwadzieścia dwa złote, 00 groszy" /\
  amountToWords (dec false 1200 (-2)) = Ok "dwanaście złotych, 00 groszy".
Proof.
  cbv zeta. unfold Second._declension.
  destruct (n =? 1) eqn:E1.
  - apply Z.eqb_eq in E1.
    repeat split; intros; try reflexivity; try tauto; try congruence.
  - apply Z.eqb_neq in E1.
    destruct ((2 <=? n mod 10) && (n mod 10 <=? 4)
              && negb ((12 <=? n mod 100) && (n mod 100 <=? 14))) eqn:E2.
    + assert (Hfew : (2 <= n mod 10 <= 4) /\ ~ (12 <= n mod 100 <= 14)).
      { apply andb_prop in E2 as [Ea Eb]. apply andb_prop in Ea as [Ea Ec].
        apply Z.leb_le in Ea, Ec. apply negb_true_iff in Eb.
        apply andb_false_iff in Eb. split; [lia |].
        destruct Eb as [Eb | Eb]; apply Z.leb_gt in Eb; lia. }
      repeat split; intros; try reflexivity; try tauto; try congruence.
    + assert (Hmany : ~ ((2 <= n mod 10 <= 4) /\ ~ (12 <= n mod 100 <= 14))).
      { intros [Ha Hb]. apply andb_false_iff in E2 as [E2 | E2].
        - apply andb_false_iff in E2 as [E2 | E2]; apply Z.leb_gt in E2; lia.
        - apply negb_false_iff in E2. apply andb_prop in E2 as [Ea Eb].
          apply Z.leb_le in Ea, Eb. lia. }
      repeat split; intros; try reflexivity; try tauto; try congruence.
Qed.

Lemma declension_rule_witness :
  "grosz" <> "grosze" /\ "grosz" <> "groszy" /\ "grosze" <> "groszy" /\
  (Second._declension 22 ("grosz", "grosze", "groszy") = "grosze" <->
   22 <> 1 /\ ((2 <= 22 mod 10 <= 4) /\ ~ (12 <= 22 mod 100 <= 14))).
Proof.
  assert (H1 : "grosz" <> "grosze") by discriminate.
  assert (H2 : "grosz" <> "groszy") by discriminate.
  assert (H3 : "grosze" <> "groszy") by discriminate.
  repeat (split; [assumption |]).
  exact (proj1 (proj2 (proj1 (proj2 (proj2 (proj2
    (declension_rule 22 "grosz" "grosze" "groszy")))) H1 H2 H3))).
Defined.

(** ** Whole amounts *)

(** C8: [amountToWords] of 0.00 is exactly "zero złotych, 00 groszy"; more
    generally, whenever the whole-unit part of the rounded amount is 0, the
    whole-amount clause is the literal "zero" and the plural-many currency
    noun. *)
Theorem zero_whole_part (c : N) (e : Z) (q : Decimal) :
  quantize (Finite false c e) (-2) = Ok q ->
  cents c e / 100 = 0 ->
  whole_words module_globals 0 = Ok "zero złotych" /\
  amountToWords (Finite false c e) =
    Ok ("zero złotych" ++ ", " ++ grosze_part module_globals (cents c e mod 100)) /\
  amountToWords (dec false 0 (-2)) = Ok "zero złotych, 00 groszy".
Proof.
  intros Hq Hz. split; [reflexivity |]. split; [| reflexivity].
  destruct (number_to_words_finite _ _ _ _ Hq) as [w [Hw [_ Hr]]].
  cbn [signed] in Hw, Hr. rewrite Hz in Hw.
  assert (w = "zero złotych") by (vm_compute in Hw; congruence).
  subst w. exact Hr.
Qed.

Lemma zero_whole_part_witness :
  amountToWords (Finite false 994 (-3)) =
    Ok ("zero złotych" ++ ", " ++
        grosze_part module_globals (cents 994 (-3) mod 100)).
Proof.
  exact (proj1 (proj2
    (zero_whole_part 994 (-3) (Finite false 99 (-2)) eq_refl eq_refl))).
Defined.

(** C1: for 1000.00 the converter returns "tysiąc, 00 groszy".  The word
    "jeden" is left out before "tysiąc", but no currency noun follows: the
    noun is attached to the units group only, and that group, being 0, is
    skipped.  The claimed whole-amount phrase "tysiąc złotych" is not
    produced. *)
Theorem thousand_has_no_currency_noun :
  amountToWords (dec false 100000 (-2)) = Ok "tysiąc, 00 groszy" /\
  whole_words module_globals 1000 = Ok "tysiąc" /\
  amountToWords (dec false 100000 (-2)) <> Ok "tysiąc złotych, 00 groszy".
Proof.
  split; [reflexivity |]. split; [reflexivity |].
  vm_compute. discriminate.
Qed.

(** C6, as the code behaves: the phrase the claim spells out, the three
    groups followed directly by ", 89 groszy", is not what the converter
    returns for 1234567.89: the currency noun stands before the comma. *)
Lemma multi_group_literal_phrase_not_returned :
  amountToWords (dec false 123456789 (-2)) <>
  Ok ("milion" ++ " " ++ "dwieście trzydzieści cztery tysiące" ++ " " ++
      "pięćset sześćdziesiąt siedem" ++ ", 89 groszy").
Proof. vm_compute. discriminate. Qed.

(** C6, amended: for 1234567.89 the group renderer gives nothing for the
    millions group 1 ("jeden" suppressed), "dwieście trzydzieści cztery" for
    234 and "pięćset sześćdziesiąt siedem" for 567; each group takes its
    magnitude noun, which for the units group is the currency noun
    "złotych"; the three parts "milion", "dwieście trzydzieści cztery
    tysiące" and "pięćset sześćdziesiąt siedem złotych" are joined in
    descending order by single spaces and followed by ", 89 groszy". *)
Theorem multi_group_composition :
  split_groups 1234567 = [567; 234; 1] /\
  _group_to_words module_globals 1 true = Ok EmptyString /\
  _group_to_words module_globals 234 true = Ok "dwieście trzydzieści cztery" /\
  _group_to_words module_globals 567 false = Ok "pięćset sześćdziesiąt siedem" /\
  for_groups module_globals (Py.enumerate (split_groups 1234567)) [] =
    Ok [ "milion";
         "dwieście trzydzieści cztery tysiące";
         "pięćset sześćdziesiąt siedem złotych" ] /\
  amountToWords (dec false 123456789 (-2)) =
    Ok ("milion" ++ " " ++ "dwieście trzydzieści cztery tysiące" ++ " " ++
        "pięćset sześćdziesiąt siedem" ++ " złotych" ++ ", 89 groszy").
Proof. repeat split. Qed.

(** ** The word "jeden" *)

Lemma speaks_all :
  forallb (speaks module_globals) (map Z.of_nat (seq 1 999)) = true.
Proof. vm_compute. reflexivity. Qed.

(** A group from 1 to 999 spoken in full is a non-empty text that begins
    with no white space. *)
Lemma group_spoken (group : Z) :
  0 < group < 1000 ->
  exists c r,
    _group_to_words module_globals group false = Ok (String c r) /\
    Py.isspace c = false.
Proof.
  intros Hg.
  assert (Hin : In group (map Z.of_nat (seq 1 999))).
  { apply in_map_iff. exists (Z.to_nat group). split; [lia |].
    apply in_seq. lia. }
  pose proof (proj1 (forallb_forall _ _) speaks_all _ Hin) as Hs.
  unfold speaks in Hs.
  destruct (group_to_words_total group false Hg) as [w [Hw Hl]].
  rewrite Hw in Hs. destruct w as [| c r]; [discriminate |].
  exists c, r. split; [exact Hw |].
  destruct (Py.isspace c) eqn:E; [| reflexivity].
  exfalso. cbn [Py.lstrip] in Hl. rewrite E in Hl.
  pose proof (lstrip_length r) as L. rewrite Hl in L. cbn in L. lia.
Qed.

(** The forms of a magnitude are one of the four table entries. *)
Lemma group_forms_in_table (idx : nat) (forms : string * string * string) :
  group_forms module_globals idx = Ok forms -> In forms Second._GROUPS.
Proof.
  destruct (le_lt_dec 4 idx) as [H | H].
  - rewrite (group_forms_beyond idx H). intros E. injection E as <-.
    cbn. tauto.
  - do 4 (destruct idx as [| idx];
          [intros E; vm_compute in E; injection E as <-; cbn; tauto |]).
    lia.
Qed.

(** A declined magnitude noun is a word: not empty, white space at neither
    end. *)
Lemma magnitude_noun_clean (idx : nat) (forms : string * string * string)
  (group : Z) :
  group_forms module_globals idx = Ok forms ->
  Second._declension group forms <> EmptyString /\
  Py.lstrip (Second._declension group forms) = Second._declension group forms /\
  Py.rstrip (Second._declension group forms) = Second._declension group forms.
Proof.
  intros Hf. apply group_forms_in_table in Hf. destruct forms as [[f0 f1] f2].
  cbn in Hf.
  destruct Hf as [Hf | [Hf | [Hf | [Hf | []]]]]; injection Hf as <- <- <-;
    match goal with
    | |- context [Second._declension group (?a, ?b, ?c)] =>
        destruct (declension_cases group a b c) as [-> | [-> | ->]]
    end;
    repeat split; discriminate.
Qed.

(** With [hide_one] set, only the group 1 is rendered otherwise than in
    full. *)
Lemma hide_one_only_hides_one (G : Globals) (group : Z) :
  ~ (group mod 100 = 1 /\ group / 100 = 0) ->
  _group_to_words G group true = _group_to_words G group false.
Proof.
  intros Hn. unfold _group_to_words.
  destruct (group mod 100 =? 1) eqn:E1; [| reflexivity].
  destruct (group / 100 =? 0) eqn:E2; [| reflexivity].
  apply Z.eqb_eq in E1, E2. exfalso. apply Hn. now split.
Qed.

(** The part that one pass of the loop writes for a group at an index:
    the magnitude noun alone when the group is 1 above the units, the group
    in full and the noun otherwise. *)
Lemma loop_part (group : Z) (idx : nat) (forms : string * string * string)
  (spoken : string) (parts : list string) :
  0 < group < 1000 ->
  group_forms module_globals idx = Ok forms ->
  _group_to_words module_globals group false = Ok spoken ->
  let noun := Second._declension group forms in
  (group mod 100 = 1 /\ group / 100 = 0 /\ (1 <= idx)%nat ->
   for_groups module_globals [(idx, group)] parts = Ok (noun :: parts) /\
   Py.strip noun = noun) /\
  (~ (group mod 100 = 1 /\ group / 100 = 0 /\ (1 <= idx)%nat) ->
   for_groups module_globals [(idx, group)] parts =
     Ok ((spoken ++ " " ++ noun) :: parts) /\
   Py.strip (spoken ++ " " ++ noun) = spoken ++ " " ++ noun).
Proof.
  intros Hg Hf Hs. cbv zeta.
  destruct (magnitude_noun_clean idx forms group Hf) as [Hd0 [Hd1 Hd2]].
  set (noun := Second._declension group forms) in *.
  assert (Hnoun : Py.strip (" " ++ noun) = noun)
    by (rewrite (strip_app " " noun Hd0 Hd1 Hd2); reflexivity).
  assert (Hfull : Py.strip (spoken ++ " " ++ noun) = spoken ++ " " ++ noun).
  { destruct (group_spoken group Hg) as [c [r [Hw Hc]]].
    rewrite Hs in Hw. injection Hw as ->.
    rewrite <- string_app_assoc.
    rewrite (strip_app _ noun Hd0 Hd1 Hd2). cbn [append Py.lstrip].
    now rewrite Hc. }
  assert (Hz : (group =? 0) = false) by (apply Z.eqb_neq; lia).
  split.
  - intros [Hm [Hh Hi]].
    assert (group = 1).
    { pose proof (Z.div_mod group 100 ltac:(lia)). lia. }
    subst group. split.
    + cbn [for_groups]. rewrite Hz.
      destruct idx as [| idx]; [lia |].
      change (0 <? S idx)%nat with true.
      change (_group_to_words module_globals 1 true) with (@Ok string EmptyString).
      cbn [bind]. rewrite Hf. cbn [bind g_declension module_globals].
      fold noun. change (EmptyString ++ " " ++ noun) with (" " ++ noun).
      now rewrite Hnoun.
    + rewrite <- Hnoun at 1. unfold Py.strip.
      rewrite (lstrip_rstrip (Py.lstrip (" " ++ noun)))
        by apply lstrip_lstrip.
      fold (Py.strip (" " ++ noun)). rewrite Hnoun. exact Hd2.
  - intros Hn. split; [| exact Hfull].
    cbn [for_groups]. rewrite Hz.
    assert (Hw : _group_to_words module_globals group (0 <? idx)%nat =
                 Ok spoken).
    { destruct idx as [| idx]; [exact Hs |].
      change (0 <? S idx)%nat with true.
      rewrite hide_one_only_hides_one; [exact Hs |].
      intros [Hm Hh]. apply Hn. repeat split; [assumption .. | lia]. }
    rewrite Hw. cbn [bind]. rewrite Hf. cbn [bind g_declension module_globals].
    fold noun. now rewrite Hfull.
Qed.

(** The groups of [group * 1000^idx]: [idx] zeros below the group. *)
Lemma split_groups_scaled (group : Z) (idx : nat) :
  0 < group < 1000 ->
  split_groups (group * 1000 ^ Z.of_nat idx) = (repeat 0 idx ++ [group])%list.
Proof.
  intros Hg. induction idx as [| idx IH].
  - change (1000 ^ Z.of_nat 0) with 1. rewrite Z.mul_1_r.
    rewrite split_groups_eq.
    destruct (0 <? group) eqn:E; [| apply Z.ltb_ge in E; lia].
    rewrite Z.mod_small, Z.div_small by lia.
    rewrite split_groups_eq. reflexivity.
  - rewrite Nat2Z.inj_succ, Z.pow_succ_r by lia.
    assert (Hp : 0 < 1000 ^ Z.of_nat idx) by (apply Z.pow_pos_nonneg; lia).
    replace (group * (1000 * 1000 ^ Z.of_nat idx))
      with (group * 1000 ^ Z.of_nat idx * 1000) by lia.
    rewrite split_groups_eq.
    destruct (0 <? group * 1000 ^ Z.of_nat idx * 1000) eqn:E;
      [| apply Z.ltb_ge in E; nia].
    rewrite Z.mod_mul, Z.div_mul by lia. rewrite IH. reflexivity.
Qed.

(** The loop passes over zero groups and only counts them. *)
Lemma for_groups_zeros (G : Globals) (k : nat) :
  forall i l parts,
    for_groups G (Py.enumerate_from i (repeat 0 k ++ l)%list) parts =
    for_groups G (Py.enumerate_from (k + i) l) parts.
Proof.
  induction k as [| k IH]; intros i l parts; [reflexivity |].
  cbn [repeat app Py.enumerate_from for_groups].
  change (0 =? 0) with true. cbv iota. rewrite IH.
  now replace (k + S i)%nat with (S k + i)%nat by lia.
Qed.

(** C5: for a group from 1 to 999 standing at magnitude index [idx], the
    loop of the converter leaves "jeden" out exactly when the tens-and-units
    part is 1, there is no hundreds digit and [idx >= 1].  In that case the
    part it writes, and the whole-amount words of [group * 1000^idx], are the
    magnitude noun alone ("tysiąc", "milion" or "miliard"); in every other
    case they are the group spoken in full, a space and the magnitude noun,
    and the group spoken in full ends in "jeden" whenever its tens-and-units
    part is 1.  So 1000.00 begins "tysiąc", 101000.00 begins "sto jeden
    tysięcy", and at index 0 the value 1 is spoken: 1.00 is "jeden złoty, 00
    groszy". *)
Theorem jeden_suppression (group : Z) (idx : nat) :
  0 < group < 1000 ->
  let suppressed := group mod 100 = 1 /\ group / 100 = 0 /\ (1 <= idx)%nat in
  exists forms spoken,
    group_forms module_globals idx = Ok forms /\
    _group_to_words module_globals group false = Ok spoken /\
    (group mod 100 = 1 -> exists before, spoken = before ++ "jeden") /\
    (suppressed ->
     In (Second._declension group forms) ["tysiąc"; "milion"; "miliard"] /\
     (forall parts,
         for_groups module_globals [(idx, group)] parts =
         Ok (Second._declension group forms :: parts)) /\
     whole_words module_globals (group * 1000 ^ Z.of_nat idx) =
       Ok (Second._declension group forms)) /\
    (~ suppressed ->
     (forall parts,
         for_groups module_globals [(idx, group)] parts =
         Ok ((spoken ++ " " ++ Second._declension group forms) :: parts)) /\
     whole_words module_globals (group * 1000 ^ Z.of_nat idx) =
       Ok (spoken ++ " " ++ Second._declension group forms)) /\
    _group_to_words module_globals 101 true = Ok "sto jeden" /\
    amountToWords (dec false 100000 (-2)) = Ok "tysiąc, 00 groszy" /\
    amountToWords (dec false 10100000 (-2)) =
      Ok "sto jeden tysięcy, 00 groszy" /\
    amountToWords (dec false 100000000 (-2)) = Ok "milion, 00 groszy" /\
    amountToWords (dec false 100 (-2)) = Ok "jeden złoty, 00 groszy".
Proof.
  intros Hg. cbv zeta.
  destruct (group_forms_total idx) as [forms Hf].
  destruct (group_spoken group Hg) as [c [r [Hs _]]].
  exists forms, (String c r).
  split; [exact Hf |]. split; [exact Hs |].
  (* the whole-amount words of [group * 1000^idx] come from one pass *)
  assert (Hwhole : forall part,
             for_groups module_globals [(idx, group)] [] = Ok [part] ->
             Py.strip part = part ->
             whole_words module_globals (group * 1000 ^ Z.of_nat idx) =
             Ok part).
  { intros part Hp Hstrip. unfold whole_words.
    assert (Hpos : 0 < group * 1000 ^ Z.of_nat idx).
    { assert (0 < 1000 ^ Z.of_nat idx) by (apply Z.pow_pos_nonneg; lia).
      nia. }
    destruct (group * 1000 ^ Z.of_nat idx =? 0) eqn:E;
      [apply Z.eqb_eq in E; lia |].
    rewrite (split_groups_scaled group idx Hg). unfold Py.enumerate.
    rewrite for_groups_zeros, Nat.add_0_r.
    cbn [Py.enumerate_from]. rewrite Hp. cbn [bind Py.join].
    now rewrite Hstrip. }
  split; [| split; [| split; [| repeat split]]].
  - intros Hm.
    assert (Hh : 0 <= group / 100 < 10).
    { split; [apply Z.div_pos; lia | apply Z.div_lt_upper_bound; lia]. }
    assert (Hc : group = 100 * (group / 100) + 1).
    { pose proof (Z.div_mod group 100 ltac:(lia)). lia. }
    assert (Hcases : group / 100 = 0 \/ group / 100 = 1 \/ group / 100 = 2 \/
                     group / 100 = 3 \/ group / 100 = 4 \/ group / 100 = 5 \/
                     group / 100 = 6 \/ group / 100 = 7 \/ group / 100 = 8 \/
                     group / 100 = 9) by lia.
    exists (if group / 100 =? 0 then EmptyString
            else nth (Z.to_nat (group / 100)) Second._HUNDREDS EmptyString
                 ++ " ").
    enough (Hok : _group_to_words module_globals group false =
                  Ok ((if group / 100 =? 0 then EmptyString
                       else nth (Z.to_nat (group / 100)) Second._HUNDREDS
                              EmptyString ++ " ") ++ "jeden")).
    { rewrite Hs in Hok. now injection Hok. }
    rewrite Hc.
    repeat (destruct Hcases as [Hcases | Hcases];
            [rewrite Hcases; reflexivity |]).
    rewrite Hcases. reflexivity.
  - intros Hsup.
    assert (group = 1).
    { destruct Hsup as [Hm [Hh _]].
      pose proof (Z.div_mod group 100 ltac:(lia)). lia. }
    split; [| split].
    + subst group. pose proof (group_forms_in_table idx forms Hf) as Hin.
      destruct Hsup as [_ [_ Hi]].
      destruct idx as [| idx]; [lia |].
      do 3 (destruct idx as [| idx];
            [vm_compute in Hf; injection Hf as <-; cbn; tauto |]).
      rewrite (group_forms_beyond (S (S (S (S idx)))) ltac:(lia)) in Hf.
      injection Hf as <-. cbn. tauto.
    + intros parts.
      exact (proj1 (proj1 (loop_part group idx forms (String c r) parts
                             Hg Hf Hs) Hsup)).
    + destruct (proj1 (loop_part group idx forms (String c r) [] Hg Hf Hs)
                  Hsup) as [Hp Hstrip].
      now apply Hwhole.
  - intros Hnot. split.
    + intros parts.
      exact (proj1 (proj2 (loop_part group idx forms (String c r) parts
                             Hg Hf Hs) Hnot)).
    + destruct (proj2 (loop_part group idx forms (String c r) [] Hg Hf Hs)
                  Hnot) as [Hp Hstrip].
      now apply Hwhole.
Qed.

Lemma jeden_suppression_witness :
  exists forms,
    group_forms module_globals 1 = Ok forms /\
    In (Second._declension 1 forms) ["tysiąc"; "milion"; "miliard"] /\
    for_groups module_globals [(1%nat, 1)] [] =
      Ok [Second._declension 1 forms] /\
    whole_words module_globals (1 * 1000 ^ Z.of_nat 1) =
      Ok (Second._declension 1 forms).
Proof.
  destruct (jeden_suppression 1 1 ltac:(lia))
    as [forms [spoken [H1 [_ [_ [H4 _]]]]]].
  assert (Hs : 1 mod 100 = 1 /\ 1 / 100 = 0 /\ (1 <= 1)%nat)
    by (repeat split; lia).
  destruct (H4 Hs) as [Hin [Hloop Hwhole]].
  exists forms. repeat split; [exact H1 | exact Hin | apply Hloop | exact Hwhole].
Defined.

(** ** Rounding and the subunit clause *)

Lemma round_half_up_opp (n : Z) (d : positive) :
  0 <= n ->
  round_half_up ((- n # d) * inject_Z 100) =
  - round_half_up ((n # d) * inject_Z 100).
Proof.
  intros Hn. rewrite (round_half_up_frac n d Hn).
  destruct (Z.eq_dec n 0) as [-> | Hz].
  - change (- 0) with 0. rewrite (round_half_up_frac 0 d) by lia.
    rewrite Z.div_small by lia. reflexivity.
  - unfold round_half_up.
    assert (Hle : Qle_bool 0 ((- n # d) * inject_Z 100) = false).
    { apply not_true_is_false. intros H. apply Qle_bool_iff in H.
      unfold Qle in H. simpl in H. lia. }
    rewrite Hle. unfold Qfloor, Qplus, Qmult, Qopp, inject_Z.
    cbn [Qnum Qden]. rewrite !Pos2Z.inj_mul. f_equal. f_equal; lia.
Qed.

Lemma to_Q_frac (c : N) (e : Z) :
  exists n d, 0 <= n /\ to_Q false c e = (n # d) /\ to_Q true c e = (- n # d).
Proof.
  unfold to_Q, signed. pose proof (N2Z.is_nonneg c) as Hc.
  destruct (0 <=? e) eqn:E.
  - apply Z.leb_le in E. pose proof (pow10_pos e E).
    exists (Z.of_N c * 10 ^ e), 1%positive. split; [nia |].
    split; [reflexivity |]. unfold inject_Z. f_equal. lia.
  - exists (Z.of_N c), (Z.to_pos (10 ^ (- e))). now repeat split.
Qed.

(** Whatever the sign, the quantized value is the amount times one hundred
    rounded half up: a tie moves away from zero. *)
Lemma signed_cents_round_half_up (s : bool) (c : N) (e : Z) :
  signed s (cents c e) = round_half_up (to_Q s c e * inject_Z 100).
Proof.
  destruct s; [| apply cents_round_half_up].
  destruct (to_Q_frac c e) as [n [d [Hn [Hp Hm]]]].
  rewrite Hm, round_half_up_opp by exact Hn.
  rewrite <- Hp, <- cents_round_half_up. reflexivity.
Qed.

Lemma cents_nonneg (c : N) (e : Z) : 0 <= cents c e.
Proof. unfold cents. apply N2Z.is_nonneg. Qed.

Lemma format_02d_all :
  forallb (fun n => String.eqb (Py.format_02d n) (two_digits n))
          (map Z.of_nat (seq 0 100)) = true.
Proof. vm_compute. reflexivity. Qed.

(** From 0 to 99 the format is the tens digit and the units digit. *)
Lemma format_02d_two_digits (n : Z) :
  0 <= n < 100 -> Py.format_02d n = two_digits n.
Proof.
  intros Hn. apply String.eqb_eq.
  apply (proj1 (forallb_forall _ _) format_02d_all).
  apply in_map_iff. exists (Z.to_nat n). split; [lia |]. apply in_seq. lia.
Qed.

(** C4: quantization rounds half up, ties away from zero, for either sign;
    and for every non-negative amount that the decimal context can quantize
    the converter returns a phrase whose subunit clause shows, as two
    zero-padded digits, [round_half_up(amount * 100) mod 100].  An amount of
    exactly 10.005 becomes 10.01: the subunit clause reads 01. *)
Theorem subunit_digits_round_half_up (c : N) (e : Z) (q : Decimal) :
  quantize (Finite false c e) (-2) = Ok q ->
  let r := round_half_up (to_Q false c e * inject_Z 100) in
  q = Finite false (Z.to_N r) (-2) /\
  (exists w,
      whole_words module_globals (r / 100) = Ok w /\
      amountToWords (Finite false c e) =
        Ok (w ++ ", " ++ two_digits (r mod 100) ++ " " ++
            Second._declension (r mod 100) First._GROSZ_FORMS)) /\
  (forall s' c' e' q',
      quantize (Finite s' c' e') (-2) = Ok q' ->
      exists k, q' = Finite s' k (-2) /\
                signed s' (Z.of_N k) =
                round_half_up (to_Q s' c' e' * inject_Z 100)) /\
  quantize (dec false 10005 (-3)) (-2) = Ok (dec false 1001 (-2)) /\
  amountToWords (dec false 10005 (-3)) = Ok "dziesięć złotych, 01 grosz".
Proof.
  intros Hq. cbv zeta. rewrite <- cents_round_half_up.
  split; [| split; [| split; [| split; reflexivity]]].
  - destruct (quantize_cents_inv _ _ _ _ Hq) as [-> _].
    unfold cents. now rewrite N2Z.id.
  - destruct (number_to_words_finite _ _ _ _ Hq) as [w [Hw [_ Hr]]].
    cbn [signed] in Hw, Hr. exists w. split; [exact Hw |].
    rewrite Hr. unfold grosze_part.
    rewrite format_02d_two_digits; [reflexivity |].
    apply Z.mod_pos_bound. lia.
  - intros s' c' e' q' Hq'.
    destruct (quantize_cents_inv _ _ _ _ Hq') as [-> _].
    eexists. split; [reflexivity |]. apply signed_cents_round_half_up.
Qed.

Lemma subunit_digits_round_half_up_witness :
  exists w,
    whole_words module_globals
      (round_half_up (to_Q false 10005 (-3) * inject_Z 100) / 100) = Ok w /\
    amountToWords (Finite false 10005 (-3)) =
      Ok (w ++ ", " ++
          two_digits
            (round_half_up (to_Q false 10005 (-3) * inject_Z 100) mod 100) ++
          " " ++
          Second._declension
            (round_half_up (to_Q false 10005 (-3) * inject_Z 100) mod 100)
            First._GROSZ_FORMS).
Proof.
  exact (proj1 (proj2
    (subunit_digits_round_half_up 10005 (-3) (Finite false 1001 (-2))
       eq_refl))).
Defined.

(** Beyond 28 significant digits the context refuses to quantize, and the
    converter raises. *)
Lemma beyond_precision_raises :
  amountToWords (dec false 1 26) = Raise InvalidOperation.
Proof. reflexivity. Qed.

(** ** Amounts outside the intended range *)

(** C2, as the code behaves: the converter makes no sign check.  For -5.00
    it raises nothing and returns the phrase ", 00 groszy". *)
Lemma negative_five_returns_phrase :
  amountToWords (dec true 500 (-2)) = Ok ", 00 groszy" /\
  ~ (exists x, amountToWords (dec true 500 (-2)) = Raise x).
Proof.
  split; [reflexivity |]. intros [x H]. vm_compute in H. discriminate H.
Qed.

(** C2, amended: for every negative amount that the decimal context can
    quantize the converter raises no error and returns a phrase.  Its
    whole-amount clause is empty, or "zero złotych" when the rounded amount
    is above -1; the subunit clause formats the subunit value, which is zero
    or negative, so that -0.50 reads "zero złotych, -50 groszy". *)
Theorem negative_amount_phrase (c : N) (e : Z) (q : Decimal) :
  quantize (Finite true c e) (-2) = Ok q ->
  amountToWords (Finite true c e) =
    Ok ((if cents c e / 100 =? 0 then "zero złotych" else EmptyString) ++
        ", " ++ grosze_part module_globals (- (cents c e mod 100))) /\
  ~ (exists x, amountToWords (Finite true c e) = Raise x) /\
  amountToWords (dec true 50 (-2)) = Ok "zero złotych, -50 groszy".
Proof.
  intros Hq.
  destruct (number_to_words_finite _ _ _ _ Hq) as [w [Hw [_ Hr]]].
  destruct (whole_words_total (signed true (cents c e / 100)))
    as [w' [Hw' [_ [Hzero Hneg]]]].
  rewrite Hw in Hw'. injection Hw' as <-. cbn [signed] in *.
  assert (Hw0 : w = if cents c e / 100 =? 0 then "zero złotych"
                    else EmptyString).
  { pose proof (cents_nonneg c e) as Hc.
    pose proof (Z.div_pos (cents c e) 100 Hc ltac:(lia)) as Hd.
    destruct (cents c e / 100 =? 0) eqn:E.
    - apply Z.eqb_eq in E. apply Hzero. lia.
    - apply Z.eqb_neq in E. apply Hneg. lia. }
  rewrite <- Hw0. split; [exact Hr |]. split; [| reflexivity].
  intros [x Hx]. rewrite Hr in Hx. discriminate Hx.
Qed.

Lemma negative_amount_phrase_witness :
  amountToWords (Finite true 50 (-2)) =
    Ok ((if cents 50 (-2) / 100 =? 0 then "zero złotych" else EmptyString) ++
        ", " ++ grosze_part module_globals (- (cents 50 (-2) mod 100))).
Proof.
  exact (proj1
    (negative_amount_phrase 50 (-2) (Finite true 50 (-2)) eq_refl)).
Defined.

Lemma split_groups_length (k : nat) :
  forall zloty,
    1000 ^ Z.of_nat k <= zloty ->
    (S k <= List.length (split_groups zloty))%nat.
Proof.
  induction k as [| k IH]; intros zloty H.
  - change (1000 ^ Z.of_nat 0) with 1 in H. rewrite split_groups_eq.
    destruct (0 <? zloty) eqn:E; [simpl; lia | apply Z.ltb_ge in E; lia].
  - rewrite Nat2Z.inj_succ, Z.pow_succ_r in H by lia.
    assert (Hp : 0 < 1000 ^ Z.of_nat k) by (apply Z.pow_pos_nonneg; lia).
    rewrite split_groups_eq.
    destruct (0 <? zloty) eqn:E; [| apply Z.ltb_ge in E; lia].
    cbn [List.length]. apply le_n_S. apply IH.
    apply Z.div_le_lower_bound; lia.
Qed.

(** C3, as the code behaves: for one trillion the converter raises nothing
    and returns a phrase that names a "miliard". *)
Lemma trillion_returns_phrase :
  amountToWords (dec false 100000000000000 (-2)) = Ok "miliard, 00 groszy" /\
  ~ (exists x, amountToWords (dec false 100000000000000 (-2)) = Raise x).
Proof.
  split; [reflexivity |]. intros [x H]. vm_compute in H. discriminate H.
Qed.

(** C3, amended: for every whole-unit amount of one trillion or more that
    the decimal context can quantize the converter raises no error and
    returns a phrase; the amount has five or more groups, and each group of
    magnitude index 4 or more takes the forms of the last table entry, the
    "miliard" family. *)
Theorem beyond_miliard_reuses_last_forms (c : N) (e : Z) (q : Decimal) :
  quantize (Finite false c e) (-2) = Ok q ->
  10 ^ 12 <= cents c e / 100 ->
  (exists w,
      whole_words module_globals (cents c e / 100) = Ok w /\
      amountToWords (Finite false c e) =
        Ok (w ++ ", " ++ grosze_part module_globals (cents c e mod 100))) /\
  (5 <= List.length (split_groups (cents c e / 100)))%nat /\
  (forall idx,
      (4 <= idx)%nat ->
      group_forms module_globals idx = Ok ("miliard", "miliardy", "miliardów")).
Proof.
  intros Hq Hz. split; [| split].
  - destruct (number_to_words_finite _ _ _ _ Hq) as [w [Hw [_ Hr]]].
    exists w. now split.
  - apply (split_groups_length 4). exact Hz.
  - apply group_forms_beyond.
Qed.

Lemma beyond_miliard_reuses_last_forms_witness :
  (5 <= List.length (split_groups (cents 5 12 / 100)))%nat.
Proof.
  refine (proj1 (proj2
    (beyond_miliard_reuses_last_forms 5 12 (Finite false 500000000000000 (-2))
       eq_refl _))).
  vm_compute. discriminate.
Defined.

(** ** Quantizing before the call *)

(** C9: the converter quantizes its argument itself, so handing it the
    quantized amount [q(x)] gives the same result as handing it [x]: the
    same phrase when [x] can be quantized, the same exception when it
    cannot.  This holds for every decimal, the non-negative ones among
    them. *)
Theorem prequantized_same_phrase (value : Decimal) :
  (amountToWords value =
   let* quantized := quantize value (-2) in amountToWords quantized) /\
  (forall quantized,
      quantize value (-2) = Ok quantized ->
      amountToWords value = amountToWords quantized).
Proof.
  assert (H : forall quantized,
             quantize value (-2) = Ok quantized ->
             amountToWords value = amountToWords quantized).
  { intros quantized Hq. destruct value as [s c e | s |].
    - destruct (quantize_cents_inv _ _ _ _ Hq) as [Hs Hd].
      unfold amountToWords, _number_to_words_pl. rewrite Hq. subst quantized.
      now rewrite (quantize_cents_fixed s _ Hd).
    - discriminate Hq.
    - injection Hq as <-. reflexivity. }
  split; [| exact H].
  destruct (quantize value (-2)) as [quantized | x] eqn:Hq.
  - cbn [bind]. now apply H.
  - cbn [bind]. now apply number_to_words_raises.
Qed.

Lemma prequantized_same_phrase_witness :
  amountToWords (Finite false 10005 (-3)) =
  amountToWords (Finite false 1001 (-2)).
Proof.
  exact (proj2 (prequantized_same_phrase (Finite false 10005 (-3)))
           (Finite false 1001 (-2)) eq_refl).
Defined.

(** * Further properties of the converter *)

(** ** The grouping loop *)

Lemma split_groups_spec_upto (n : nat) :
  forall zloty,
    0 <= zloty < Z.of_nat n ->
    groups_value (split_groups zloty) = zloty /\
    last (split_groups zloty) 1 <> 0.
Proof.
  induction n as [| n IH]; intros zloty Hz; [lia |].
  rewrite split_groups_eq. destruct (0 <? zloty) eqn:E.
  - apply Z.ltb_lt in E.
    pose proof (Z.div_mod zloty 1000 ltac:(lia)) as Hdm.
    pose proof (Z.mod_pos_bound zloty 1000 ltac:(lia)) as Hm.
    assert (Hq : 0 <= zloty / 1000 < Z.of_nat n).
    { split; [apply Z.div_pos; lia |].
      apply Z.div_lt_upper_bound; lia. }
    destruct (IH _ Hq) as [Hv Hl]. split.
    + cbn [groups_value fold_right]. fold (groups_value (split_groups (zloty / 1000))).
      rewrite Hv. lia.
    + rewrite split_groups_eq in *.
      destruct (0 <? zloty / 1000) eqn:F.
      * exact Hl.
      * apply Z.ltb_ge in F. cbn [last]. lia.
  - split; [apply Z.ltb_ge in E; cbn; lia | cbn; lia].
Qed.

(** X1: the groups written by the loop are the base-1000 digits of the
    whole amount: each lies between 0 and 999, together they give the amount
    back, and the most significant one is not zero; an amount that is not
    positive has no groups at all. *)
Theorem split_groups_base_1000 (zloty : Z) :
  Forall (fun group => 0 <= group < 1000) (split_groups zloty) /\
  (0 <= zloty ->
   groups_value (split_groups zloty) = zloty /\
   last (split_groups zloty) 1 <> 0) /\
  (zloty <= 0 -> split_groups zloty = []).
Proof.
  split; [apply split_groups_range |]. split.
  - intros Hz. apply (split_groups_spec_upto (S (Z.to_nat zloty))). lia.
  - intros Hz. rewrite split_groups_eq.
    destruct (0 <? zloty) eqn:E; [apply Z.ltb_lt in E; lia | reflexivity].
Qed.

Lemma split_groups_base_1000_witness :
  groups_value (split_groups 1234567) = 1234567 /\
  last (split_groups 1234567) 1 <> 0.
Proof.
  refine (proj1 (proj2 (split_groups_base_1000 1234567)) _). lia.
Defined.

(** ** The bounds of the group renderer *)

Lemma rstrip_cons (c : ascii) (r : string) :
  Py.rstrip (String c r) =
  match Py.rstrip r with
  | EmptyString => if Py.isspace c then EmptyString else String c EmptyString
  | r' => String c r'
  end.
Proof. reflexivity. Qed.

Lemma rstrip_rstrip (s : string) : Py.rstrip (Py.rstrip s) = Py.rstrip s.
Proof.
  induction s as [| c r IH]; [reflexivity |]. rewrite rstrip_cons.
  destruct (Py.rstrip r) as [| c' r'] eqn:E.
  - destruct (Py.isspace c) eqn:F; [reflexivity |].
    rewrite rstrip_cons. cbn [Py.rstrip]. now rewrite F.
  - rewrite rstrip_cons, IH. reflexivity.
Qed.

Lemma strip_strip (s : string) : Py.strip (Py.strip s) = Py.strip s.
Proof.
  unfold Py.strip.
  rewrite (lstrip_rstrip (Py.lstrip s)) by apply lstrip_lstrip.
  apply rstrip_rstrip.
Qed.

(** X2: [_group_to_words] finds every table entry it asks for when the
    group lies between 0 and 999, and what it returns has white space at
    neither end; from 1000 on the hundreds index runs past the table and the
    call raises IndexError. *)
Theorem group_to_words_bounds (group : Z) (hide_one : bool) :
  (0 <= group < 1000 ->
   exists w, _group_to_words module_globals group hide_one = Ok w /\
             Py.strip w = w) /\
  (1000 <= group ->
   _group_to_words module_globals group hide_one = Raise IndexError).
Proof.
  split.
  - intros Hg. destruct (Z.eq_dec group 0) as [-> | Hn].
    + exists EmptyString. split; reflexivity.
    + destruct (group_to_words_total group hide_one ltac:(lia)) as [w [Hw Hl]].
      exists w. split; [exact Hw |].
      unfold _group_to_words in Hw.
      destruct (group =? 0); [injection Hw as <-; reflexivity |].
      apply bind_inv in Hw as [w1 [_ Hw]].
      apply bind_inv in Hw as [w2 [_ Hw]].
      injection Hw as <-. apply strip_strip.
  - intros Hg. unfold _group_to_words.
    destruct (group =? 0) eqn:E; [apply Z.eqb_eq in E; lia |].
    assert (Hh : 10 <= group / 100) by (apply Z.div_le_lower_bound; lia).
    destruct (group / 100 =? 0) eqn:F; [apply Z.eqb_eq in F; lia |].
    cbn [negb]. unfold append_from, Py.index.
    change (Z.of_nat (List.length (g_HUNDREDS module_globals))) with 10.
    destruct (group / 100 <? 0) eqn:N; [apply Z.ltb_lt in N; lia |].
    destruct (10 <=? group / 100) eqn:M; [| apply Z.leb_gt in M; lia].
    rewrite orb_true_r. reflexivity.
Qed.

Lemma group_to_words_bounds_witness :
  (exists w, _group_to_words module_globals 999 false = Ok w /\
             Py.strip w = w) /\
  _group_to_words module_globals 1000 false = Raise IndexError.
Proof.
  split.
  - refine (proj1 (group_to_words_bounds 999 false) _). lia.
  - refine (proj2 (group_to_words_bounds 1000 false) _). lia.
Defined.

(** ** Which amounts the converter accepts *)

Lemma ndigits_loop_lower (fuel : nat) :
  forall c, 0 < c -> 10 ^ (ndigits_loop fuel c - 1) <= c.
Proof.
  induction fuel as [| f IH]; intros c Hc.
  - cbn [ndigits_loop]. change (10 ^ (1 - 1)) with 1. lia.
  - cbn [ndigits_loop]. destruct (c <? 10) eqn:E.
    + change (10 ^ (1 - 1)) with 1. lia.
    + apply Z.ltb_ge in E.
      assert (Hd : 0 < c / 10) by (apply Z.div_str_pos; lia).
      specialize (IH _ Hd).
      assert (Hn : 1 <= ndigits_loop f (c / 10)).
      { clear. generalize (c / 10).
        induction f; intros z; cbn [ndigits_loop]; [lia |].
        destruct (z <? 10); [lia |]. specialize (IHf (z / 10)). lia. }
      replace (1 + ndigits_loop f (c / 10) - 1)
        with (Z.succ (ndigits_loop f (c / 10) - 1)) by lia.
      rewrite Z.pow_succ_r by lia.
      pose proof (Z.div_mod c 10 ltac:(lia)).
      pose proof (Z.mod_pos_bound c 10 ltac:(lia)). lia.
Qed.

Lemma ndigits_lower (c : N) :
  0 < Z.of_N c -> 10 ^ (ndigits c - 1) <= Z.of_N c.
Proof. apply ndigits_loop_lower. Qed.

Lemma ndigits_loop_ge_1 (fuel : nat) : forall z, 1 <= ndigits_loop fuel z.
Proof.
  induction fuel as [| f IH]; intros z; cbn [ndigits_loop]; [lia |].
  destruct (z <? 10); [lia |]. specialize (IH (z / 10)). lia.
Qed.

Lemma ndigits_ge_1 (c : N) : 1 <= ndigits c.
Proof. apply ndigits_loop_ge_1. Qed.

(** A coefficient has at most [k] digits exactly when it is below
    [10^k]. *)
Lemma ndigits_le_iff (c : N) (k : Z) :
  1 <= k -> (ndigits c <= k <-> Z.of_N c < 10 ^ k).
Proof.
  intros Hk. pose proof (ndigits_ge_1 c) as H1. split.
  - intros H. pose proof (ndigits_bound c) as Hb.
    assert (10 ^ ndigits c <= 10 ^ k) by (apply Z.pow_le_mono_r; lia). lia.
  - intros H. destruct (Z.eq_dec (Z.of_N c) 0) as [Hz | Hz].
    + assert (c = 0%N) by lia. subst c. change (ndigits 0) with 1. lia.
    + pose proof (ndigits_lower c ltac:(lia)) as Hl.
      assert (Hlt : 10 ^ (ndigits c - 1) < 10 ^ k) by lia.
      apply Z.pow_lt_mono_r_iff in Hlt; lia.
Qed.

Lemma pow10_add (a b : Z) : 0 <= a -> 0 <= b -> 10 ^ (a + b) = 10 ^ a * 10 ^ b.
Proof. intros. apply Z.pow_add_r; assumption. Qed.

(** The checks [quantize] makes before rounding agree with the size of the
    rounded coefficient. *)
Lemma cents_vs_adjusted (c : N) (e : Z) :
  (c <> 0)%N ->
  (26 <= adjusted c e -> 10 ^ 28 <= cents c e) /\
  (adjusted c e <= 25 -> cents c e <= 10 ^ 28).
Proof.
  intros Hc. unfold adjusted, cents, rescale_half_up.
  pose proof (ndigits_ge_1 c) as H1.
  pose proof (ndigits_lower c ltac:(lia)) as Hl.
  pose proof (ndigits_bound c) as Hu.
  set (z := Z.of_N c) in *. set (nd := ndigits c) in *.
  assert (Hz : 0 < z) by (unfold z; lia).
  destruct (-2 <=? e) eqn:E.
  - apply Z.leb_le in E.
    pose proof (pow10_pos (e - -2) ltac:(lia)) as Hp.
    rewrite Z2N.id by nia. split; intros Ha.
    + assert (H28 : 10 ^ 28 <= 10 ^ ((nd - 1) + (e - -2)))
        by (apply Z.pow_le_mono_r; lia).
      rewrite pow10_add in H28 by lia. nia.
    + assert (H28 : 10 ^ (nd + (e - -2)) <= 10 ^ 28)
        by (apply Z.pow_le_mono_r; lia).
      rewrite pow10_add in H28 by lia. nia.
  - apply Z.leb_gt in E.
    pose proof (pow10_pos (-2 - e) ltac:(lia)) as Hp.
    set (p := 10 ^ (-2 - e)) in *.
    pose proof (Z.div_pos z p ltac:(lia) Hp) as Hq.
    assert (Hk : Z.of_N (Z.to_N (if p <=? 2 * (z mod p)
                                 then z / p + 1 else z / p)) =
                 if p <=? 2 * (z mod p) then z / p + 1 else z / p).
    { apply Z2N.id. destruct (p <=? 2 * (z mod p)); lia. }
    rewrite Hk. split; intros Ha.
    + assert (H28 : 10 ^ (28 + (-2 - e)) <= 10 ^ (nd - 1))
        by (apply Z.pow_le_mono_r; lia).
      rewrite pow10_add in H28 by lia. fold p in H28.
      assert (10 ^ 28 <= z / p) by (apply Z.div_le_lower_bound; lia).
      destruct (p <=? 2 * (z mod p)); lia.
    + assert (H28 : 10 ^ nd <= 10 ^ (28 + (-2 - e)))
        by (apply Z.pow_le_mono_r; lia).
      rewrite pow10_add in H28 by lia. fold p in H28.
      assert (z / p < 10 ^ 28) by (apply Z.div_lt_upper_bound; lia).
      destruct (p <=? 2 * (z mod p)); lia.
Qed.

(** Quantization to cents succeeds exactly when the rounded coefficient
    stays below 28 digits. *)
Lemma quantize_cents_domain (s : bool) (c : N) (e : Z) :
  (cents c e < 10 ^ 28 ->
   quantize (Finite s c e) (-2) =
   Ok (Finite s (rescale_half_up c e (-2)) (-2))) /\
  (10 ^ 28 <= cents c e ->
   quantize (Finite s c e) (-2) = Raise InvalidOperation).
Proof.
  unfold quantize.
  replace ((-2 <? Etiny) || (Emax <? -2)) with false by reflexivity.
  destruct (c =? 0)%N eqn:Ec.
  - apply N.eqb_eq in Ec. subst c. unfold cents.
    rewrite rescale_half_up_zero. split; [reflexivity |].
    change (Z.of_N 0) with 0. intros H.
    pose proof (pow10_pos 28 ltac:(lia)). lia.
  - apply N.eqb_neq in Ec.
    destruct (cents_vs_adjusted c e Ec) as [Hbig Hsmall].
    unfold Emax, prec in *.
    destruct (999999 <? adjusted c e) eqn:E1.
    { apply Z.ltb_lt in E1. split; [| reflexivity].
      intros H. specialize (Hbig ltac:(lia)). lia. }
    destruct (28 <? adjusted c e - -2 + 1) eqn:E2.
    { apply Z.ltb_lt in E2. split; [| reflexivity].
      intros H. specialize (Hbig ltac:(lia)). lia. }
    apply Z.ltb_ge in E2. specialize (Hsmall ltac:(lia)).
    cbv zeta. fold (cents c e) in *. unfold cents in Hsmall |- *.
    set (c' := rescale_half_up c e (-2)) in *.
    assert (H29 : ndigits c' <= 29).
    { apply ndigits_le_iff; [lia |].
      assert (10 ^ 28 < 10 ^ 29) by (apply Z.pow_lt_mono_r; lia). lia. }
    assert (E3 : (999999 <? adjusted c' (-2)) = false).
    { apply Z.ltb_ge. unfold adjusted. lia. }
    rewrite E3.
    pose proof (ndigits_le_iff c' 28 ltac:(lia)) as Hiff.
    destruct (28 <? ndigits c') eqn:E4.
    + apply Z.ltb_lt in E4. split; [| reflexivity]. intros H.
      apply Hiff in H. lia.
    + apply Z.ltb_ge in E4. split; [reflexivity |]. intros H.
      apply Hiff in E4. lia.
Qed.

(** X3: the converter returns a phrase exactly for the finite amounts whose
    rounded value in grosze has at most 28 digits.  For a larger finite
    amount and for an infinity it raises InvalidOperation, for a NaN
    ValueError; it never raises IndexError or OverflowError. *)
Theorem converter_domain (value : Decimal) :
  match value with
  | Finite s c e =>
      (cents c e < 10 ^ 28 -> exists phrase, amountToWords value = Ok phrase) /\
      (10 ^ 28 <= cents c e -> amountToWords value = Raise InvalidOperation)
  | Infinity _ => amountToWords value = Raise InvalidOperation
  | NaN => amountToWords value = Raise ValueError
  end /\
  amountToWords value <> Raise IndexError /\
  amountToWords value <> Raise OverflowError.
Proof.
  destruct value as [s c e | s |].
  - destruct (quantize_cents_domain s c e) as [Hok Herr].
    destruct (Z_lt_le_dec (cents c e) (10 ^ 28)) as [H | H].
    + specialize (Hok H).
      destruct (number_to_words_finite _ _ _ _ Hok) as [w [_ [_ Hr]]].
      rewrite Hr. split; [split |]; [eauto | lia | split; discriminate].
    + specialize (Herr H).
      pose proof (number_to_words_raises module_globals _ _ Herr) as Hr.
      fold (amountToWords (Finite s c e)) in Hr. rewrite Hr.
      split; [split |]; [lia | reflexivity | split; discriminate].
  - split; [reflexivity | split; discriminate].
  - split; [reflexivity | split; discriminate].
Qed.

Lemma converter_domain_witness :
  (exists phrase,
      amountToWords (Finite false 9999999999999999999999999999 (-2)) =
      Ok phrase) /\
  amountToWords (Finite false 99999999999999999999999999995 (-3)) =
  Raise InvalidOperation.
Proof.
  split.
  - refine (proj1 (proj1
      (converter_domain (Finite false 9999999999999999999999999999 (-2)))) _).
    vm_compute. reflexivity.
  - refine (proj2 (proj1
      (converter_domain (Finite false 99999999999999999999999999995 (-3)))) _).
    vm_compute. discriminate.
Defined.

(** ** The currency noun *)

Lemma for_groups_front (l : list (nat * Z)) :
  forall parts parts',
    for_groups module_globals l parts = Ok parts' ->
    exists front, parts' = (front ++ parts)%list.
Proof.
  induction l as [| [idx group] rest IH]; intros parts parts' H.
  - injection H as <-. now exists [].
  - cbn [for_groups] in H. destruct (group =? 0); [now apply IH |].
    apply bind_inv in H as [w [_ H]]. apply bind_inv in H as [forms [_ H]].
    apply IH in H as [front ->]. eexists (front ++ [_])%list.
    rewrite <- app_assoc. reflexivity.
Qed.

Lemma join_snoc (sep : string) (front : list string) (p : string) :
  exists before, Py.join sep (front ++ [p])%list = before ++ p.
Proof.
  induction front as [| x r IH]; [now exists EmptyString |].
  destruct IH as [before IH]. cbn [app].
  destruct (r ++ [p])%list as [| y t] eqn:E.
  - destruct r; discriminate E.
  - cbn [Py.join] in *. rewrite IH. exists (x ++ sep ++ before).
    now rewrite !string_app_assoc.
Qed.

(** X4: when the last three whole digits of a non-negative amount are not
    all zero, the whole-amount clause ends with the currency noun, and the
    form of the noun is chosen by those three digits alone, whatever the
    higher groups are: 1001.00 reads "tysiąc jeden złoty". *)
Theorem currency_noun_follows_units_group (c : N) (e : Z) (q : Decimal) :
  quantize (Finite false c e) (-2) = Ok q ->
  (cents c e / 100) mod 1000 <> 0 ->
  exists before,
    amountToWords (Finite false c e) =
    Ok (before ++
        Second._declension ((cents c e / 100) mod 1000)
          ("złoty", "złote", "złotych") ++
        ", " ++ grosze_part module_globals (cents c e mod 100)).
Proof.
  intros Hq Hu.
  destruct (number_to_words_finite _ _ _ _ Hq) as [w [Hw [_ Hr]]].
  cbn [signed] in Hw, Hr. rewrite Hr. clear Hr Hq q.
  set (zloty := cents c e / 100) in *.
  assert (Hz : 0 < zloty).
  { pose proof (cents_nonneg c e).
    pose proof (Z.div_pos (cents c e) 100 ltac:(lia) ltac:(lia)).
    destruct (Z.eq_dec zloty 0) as [E | E]; [| unfold zloty in *; lia].
    rewrite E in Hu. now contradiction Hu. }
  set (d := Second._declension (zloty mod 1000) ("złoty", "złote", "złotych")).
  assert (Hd : d <> EmptyString /\ Py.lstrip d = d /\ Py.rstrip d = d).
  { unfold d.
    destruct (declension_cases (zloty mod 1000) "złoty" "złote" "złotych")
      as [-> | [-> | ->]]; repeat split; discriminate. }
  destruct Hd as [Hd0 [Hd1 Hd2]].
  enough (Hb : exists before, w = before ++ d).
  { destruct Hb as [before ->]. exists before.
    now rewrite string_app_assoc. }
  unfold whole_words in Hw.
  destruct (zloty =? 0) eqn:E0; [apply Z.eqb_eq in E0; lia |].
  rewrite split_groups_eq in Hw.
  destruct (0 <? zloty) eqn:E1; [| apply Z.ltb_ge in E1; lia].
  unfold Py.enumerate in Hw. cbn [Py.enumerate_from for_groups] in Hw.
  destruct (zloty mod 1000 =? 0) eqn:E2; [apply Z.eqb_eq in E2; lia |].
  apply bind_inv in Hw as [parts [Hp Hw]]. injection Hw as <-.
  apply bind_inv in Hp as [gw [_ Hp]].
  change (group_forms module_globals 0) with (Ok ("złoty", "złote", "złotych"))
    in Hp.
  cbn [bind g_declension module_globals] in Hp. fold d in Hp.
  apply for_groups_front in Hp as [front ->].
  destruct (join_snoc " " front (Py.strip (gw ++ " " ++ d))) as [x ->].
  rewrite <- (string_app_assoc gw " " d).
  rewrite (strip_app (gw ++ " ") d Hd0 Hd1 Hd2).
  rewrite <- string_app_assoc.
  rewrite (strip_app _ d Hd0 Hd1 Hd2). eauto.
Qed.

Lemma currency_noun_follows_units_group_witness :
  exists before,
    amountToWords (Finite false 100100 (-2)) =
    Ok (before ++
        Second._declension ((cents 100100 (-2) / 100) mod 1000)
          ("złoty", "złote", "złotych") ++
        ", " ++ grosze_part module_globals (cents 100100 (-2) mod 100)).
Proof.
  refine (currency_noun_follows_units_group 100100 (-2)
            (Finite false 100100 (-2)) eq_refl _).
  vm_compute. discriminate.
Defined.

Example thousand_and_one :
  amountToWords (dec false 100100 (-2)) = Ok "tysiąc jeden złoty, 00 groszy".
Proof. reflexivity. Qed.

(** * Months and document numbers *)

(** ** [_shift_month] *)

Lemma shift_month_index (y m d : Z) :
  1 <= snd (_shift_month y m d) <= 12 /\
  fst (_shift_month y m d) * 12 + (snd (_shift_month y m d) - 1) =
  y * 12 + (m - 1) + d.
Proof.
  unfold _shift_month. cbv zeta. cbn [fst snd].
  pose proof (Z.div_mod (y * 12 + (m - 1) + d) 12 ltac:(lia)).
  pose proof (Z.mod_pos_bound (y * 12 + (m - 1) + d) 12 ltac:(lia)). lia.
Qed.

Lemma shift_month_unique (y m d y' m' : Z) :
  1 <= m' <= 12 ->
  y' * 12 + (m' - 1) = y * 12 + (m - 1) + d ->
  _shift_month y m d = (y', m').
Proof.
  intros Hm He. unfold _shift_month. cbv zeta. rewrite <- He.
  replace (y' * 12 + (m' - 1)) with ((m' - 1) + y' * 12) by lia.
  rewrite Z.div_add, Z.mod_add by lia.
  rewrite Z.div_small, Z.mod_small by lia. f_equal; lia.
Qed.

(** Shifting twice is shifting by the sum. *)
Lemma shift_month_compose (y m a b : Z) :
  _shift_month (fst (_shift_month y m a)) (snd (_shift_month y m a)) b =
  _shift_month y m (a + b).
Proof.
  destruct (shift_month_index y m a) as [Hr Hi].
  destruct (shift_month_index y m (a + b)) as [Hr' Hi'].
  rewrite (surjective_pairing (_shift_month y m (a + b))).
  apply shift_month_unique; [exact Hr' | lia].
Qed.

(** X5: [_shift_month] counts in months: for any integers the month it
    returns lies between 1 and 12 and the pair names the month [delta] after
    the given one; shifting twice is shifting by the sum; and on a month
    between 1 and 12 a shift by 0 changes nothing and a shift by [-delta]
    undoes a shift by [delta]. *)
Theorem shift_month_arithmetic (y m a b : Z) :
  let shifted := _shift_month y m a in
  1 <= snd shifted <= 12 /\
  fst shifted * 12 + (snd shifted - 1) = y * 12 + (m - 1) + a /\
  _shift_month (fst shifted) (snd shifted) b = _shift_month y m (a + b) /\
  (1 <= m <= 12 ->
   _shift_month y m 0 = (y, m) /\
   _shift_month (fst shifted) (snd shifted) (- a) = (y, m)).
Proof.
  cbv zeta. destruct (shift_month_index y m a) as [Hr Hi].
  split; [exact Hr |]. split; [exact Hi |]. split.
  - apply shift_month_compose.
  - intros Hm. split; apply shift_month_unique; lia.
Qed.

Lemma shift_month_arithmetic_witness :
  _shift_month 2024 12 0 = (2024, 12) /\
  _shift_month (fst (_shift_month 2024 12 3)) (snd (_shift_month 2024 12 3))
    (- 3) = (2024, 12).
Proof.
  refine (proj2 (proj2 (proj2 (shift_month_arithmetic 2024 12 3 0))) _). lia.
Defined.

(** ** [_month_bounds] *)

Lemma date_new_inv (y m d : Z) (x : date) :
  Date.new y m d = Ok x ->
  x = Date.mk y m d /\ 1 <= y <= 9999 /\ 1 <= m <= 12 /\
  1 <= d <= Date.days_in_month y m.
Proof.
  unfold Date.new, Date.MINYEAR, Date.MAXYEAR.
  destruct (negb _); [discriminate |].
  destruct (_ && _) eqn:E; [| discriminate].
  intros H. injection H as <-.
  repeat (apply andb_prop in E as [E ?]).
  repeat match goal with
         | H : (_ <=? _) = true |- _ => apply Z.leb_le in H
         end.
  repeat split; lia.
Qed.

Lemma days_in_month_ge_28 (y m : Z) : 28 <= Date.days_in_month y m.
Proof.
  unfold Date.days_in_month.
  destruct (m =? 2); [destruct (Date.is_leap y); lia |].
  destruct (_ || _); lia.
Qed.

(** The first day of every month from January 1 to December 9999 is a
    date. *)
Lemma date_new_first (y m : Z) :
  1 <= y <= 9999 -> 1 <= m <= 12 -> Date.new y m 1 = Ok (Date.mk y m 1).
Proof.
  intros Hy Hm. unfold Date.new, Date.fits_int, Date.MINYEAR, Date.MAXYEAR.
  pose proof (days_in_month_ge_28 y m) as Hd.
  change (2 ^ 31) with 2147483648.
  repeat match goal with
         | |- context [?a <=? ?b] =>
             let E := fresh in
             destruct (a <=? b) eqn:E;
             [apply Z.leb_le in E | apply Z.leb_gt in E; lia]
         | |- context [?a <? ?b] =>
             let E := fresh in
             destruct (a <? b) eqn:E;
             [apply Z.ltb_lt in E | apply Z.ltb_ge in E; lia]
         end.
  reflexivity.
Qed.

Lemma date_new_out_of_range (y m : Z) :
  y < 1 \/ 9999 < y ->
  Date.new y m 1 = Raise ValueError \/ Date.new y m 1 = Raise OverflowError.
Proof.
  intros Hy. unfold Date.new. destruct (negb _); [now right |]. left.
  unfold Date.MINYEAR, Date.MAXYEAR.
  destruct (1 <=? y) eqn:E1; [| reflexivity].
  destruct (y <=? 9999) eqn:E2; [| reflexivity].
  apply Z.leb_le in E1, E2. lia.
Qed.

(** The window of a target month from January 1 to November 9999. *)
Lemma month_bounds_window_facts (reference : date) (month_offset : Z) :
  Date.valid reference ->
  let target :=
    _shift_month (Date.year reference) (Date.month reference) month_offset in
  1 <= fst target ->
  fst target * 12 + snd target < 9999 * 12 + 12 ->
  let start := Date.mk (fst target) (snd target) 1 in
  let following := _shift_month (fst target) (snd target) 1 in
  let end_ := Date.mk (fst following) (snd following) 1 in
  _month_bounds reference month_offset = Ok (start, end_) /\
  Date.ltb start end_ = true /\
  (forall d,
      Date.valid d ->
      (Date.leb start d && Date.ltb d end_ = true <->
       Date.year d = fst target /\ Date.month d = snd target)) /\
  (month_offset = 0 ->
   Date.leb start reference && Date.ltb reference end_ = true).
Proof.
  intros Hv. cbv zeta.
  set (target := _shift_month (Date.year reference) (Date.month reference)
                   month_offset).
  intros Hy Hmax.
  destruct (shift_month_index (Date.year reference) (Date.month reference)
              month_offset) as [Hr _].
  fold target in Hr.
  destruct (shift_month_index (fst target) (snd target) 1) as [Hr' Hi'].
  set (following := _shift_month (fst target) (snd target) 1) in *.
  assert (Hwin : forall d,
             Date.valid d ->
             (Date.leb (Date.mk (fst target) (snd target) 1) d
              && Date.ltb d (Date.mk (fst following) (snd following) 1) = true
              <-> Date.year d = fst target /\ Date.month d = snd target)).
  { intros d Hd. apply date_new_inv in Hd as [_ [Hdy [Hdm Hdd]]].
    unfold Date.leb, Date.ltb. cbn [Date.year Date.month Date.day].
    rewrite andb_true_iff, negb_true_iff.
    rewrite !orb_false_iff, !orb_true_iff, !andb_false_iff, !andb_true_iff.
    rewrite !orb_false_iff, !orb_true_iff, !andb_false_iff, !andb_true_iff.
    rewrite !Z.ltb_lt, !Z.ltb_ge, !Z.eqb_eq, !Z.eqb_neq. lia. }
  split; [| split; [| split]].
  - unfold _month_bounds. fold target.
    rewrite (surjective_pairing target).
    rewrite date_new_first by lia. cbn [bind]. fold following.
    rewrite (surjective_pairing following).
    rewrite date_new_first by lia. reflexivity.
  - unfold Date.ltb. cbn [Date.year Date.month Date.day].
    rewrite !orb_true_iff, !andb_true_iff, !orb_true_iff, !andb_true_iff.
    rewrite !Z.ltb_lt, !Z.eqb_eq. lia.
  - exact Hwin.
  - intros ->. apply Hwin; [exact Hv |].
    apply date_new_inv in Hv as [_ [_ [Hm _]]].
    assert (Ht : target = (Date.year reference, Date.month reference))
      by (apply shift_month_unique; lia).
    rewrite Ht. now split.
Qed.

(** X6: for a month from January 1 to November 9999, reached from the
    reference by the offset, [_month_bounds] returns the first day of that
    month and the first day of the month after it; the first is before the
    second, and a date lies from the first up to but not including the second
    exactly when it is a day of that month.  With offset 0 the reference
    itself lies in the window. *)
Theorem month_bounds_window (reference : date) (month_offset : Z) :
  Date.valid reference ->
  let target :=
    _shift_month (Date.year reference) (Date.month reference) month_offset in
  1 <= fst target ->
  fst target * 12 + snd target < 9999 * 12 + 12 ->
  let start := Date.mk (fst target) (snd target) 1 in
  let following := _shift_month (fst target) (snd target) 1 in
  let end_ := Date.mk (fst following) (snd following) 1 in
  _month_bounds reference month_offset = Ok (start, end_) /\
  Date.ltb start end_ = true /\
  (forall d,
      Date.valid d ->
      (Date.leb start d && Date.ltb d end_ = true <->
       Date.year d = fst target /\ Date.month d = snd target)) /\
  (month_offset = 0 ->
   Date.leb start reference && Date.ltb reference end_ = true).
Proof. exact (month_bounds_window_facts reference month_offset). Qed.

Lemma month_bounds_window_witness :
  _month_bounds (Date.mk 2024 12 17) 0 =
  Ok (Date.mk 2024 12 1, Date.mk 2025 1 1).
Proof.
  refine (proj1 (month_bounds_window (Date.mk 2024 12 17) 0 eq_refl _ _));
    vm_compute; [discriminate | reflexivity].
Defined.

(** X7: outside those months [_month_bounds] raises: a target month before
    January of year 1, or from December 9999 on, has no first day or no
    following first day that [date] accepts.  In particular the window of a
    reference date in December 9999 cannot be computed. *)
Theorem month_bounds_out_of_range (reference : date) (month_offset : Z) :
  let target :=
    _shift_month (Date.year reference) (Date.month reference) month_offset in
  (fst target < 1 \/ 9999 * 12 + 12 <= fst target * 12 + snd target ->
   _month_bounds reference month_offset = Raise ValueError \/
   _month_bounds reference month_offset = Raise OverflowError) /\
  (forall d, _month_bounds (Date.mk 9999 12 d) 0 = Raise ValueError).
Proof.
  cbv zeta. split; [| reflexivity].
  set (target := _shift_month (Date.year reference) (Date.month reference)
                   month_offset).
  intros H.
  destruct (shift_month_index (Date.year reference) (Date.month reference)
              month_offset) as [Hr _].
  fold target in Hr.
  destruct (shift_month_index (fst target) (snd target) 1) as [Hr' Hi'].
  unfold _month_bounds. fold target. rewrite (surjective_pairing target).
  destruct (Z_lt_le_dec (fst target) 1) as [Hlow | Hlow].
  - destruct (date_new_out_of_range (fst target) (snd target) ltac:(lia))
      as [-> | ->]; [now left | now right].
  - destruct (Z_lt_le_dec 9999 (fst target)) as [Hhigh | Hhigh].
    + destruct (date_new_out_of_range (fst target) (snd target) ltac:(lia))
        as [-> | ->]; [now left | now right].
    + rewrite date_new_first by lia. cbn [bind].
      set (following := _shift_month (fst target) (snd target) 1) in *.
      rewrite (surjective_pairing following).
      destruct (date_new_out_of_range (fst following) (snd following)
                  ltac:(lia)) as [-> | ->]; [now left | now right].
Qed.

Lemma month_bounds_out_of_range_witness :
  _month_bounds (Date.mk 1 1 1) (-1) = Raise ValueError \/
  _month_bounds (Date.mk 1 1 1) (-1) = Raise OverflowError.
Proof.
  refine (proj1 (month_bounds_out_of_range (Date.mk 1 1 1) (-1)) _).
  left. vm_compute. reflexivity.
Defined.

(** X8: consecutive windows tile the calendar: the end of the window at one
    offset is the start of the window at the next offset. *)
Theorem month_bounds_tile (reference : date) (month_offset : Z)
  (start1 end1 start2 end2 : date) :
  _month_bounds reference month_offset = Ok (start1, end1) ->
  _month_bounds reference (month_offset + 1) = Ok (start2, end2) ->
  end1 = start2.
Proof.
  unfold _month_bounds.
  pose proof (shift_month_compose (Date.year reference)
                (Date.month reference) month_offset 1) as Hc.
  set (t1 := _shift_month (Date.year reference) (Date.month reference)
               month_offset) in *.
  set (t2 := _shift_month (Date.year reference) (Date.month reference)
               (month_offset + 1)) in *.
  rewrite (surjective_pairing t1), (surjective_pairing t2).
  intros H1 H2.
  apply bind_inv in H1 as [s1 [_ H1]].
  set (f1 := _shift_month (fst t1) (snd t1) 1) in *.
  rewrite (surjective_pairing f1) in H1.
  apply bind_inv in H1 as [e1 [He1 H1]]. injection H1 as _ <-.
  apply bind_inv in H2 as [s2 [Hs2 H2]].
  set (f2 := _shift_month (fst t2) (snd t2) 1) in *.
  rewrite (surjective_pairing f2) in H2.
  apply bind_inv in H2 as [e2 [_ H2]]. injection H2 as <- _.
  apply date_new_inv in He1 as [-> _]. apply date_new_inv in Hs2 as [-> _].
  now rewrite Hc.
Qed.

Lemma month_bounds_tile_witness :
  Date.mk 2025 1 1 = Date.mk 2025 1 1.
Proof.
  exact (month_bounds_tile (Date.mk 2024 11 30) 1
           (Date.mk 2024 12 1) (Date.mk 2025 1 1)
           (Date.mk 2025 1 1) (Date.mk 2025 2 1) eq_refl eq_refl).
Defined.

(** ** [_next_document_number] *)

Lemma split_head_uint (d : Decimal.uint) (rest : string) :
  split_head "/" (NilEmpty.string_of_uint d ++ String "/" rest) =
  NilEmpty.string_of_uint d.
Proof.
  induction d; cbn [NilEmpty.string_of_uint append split_head];
    [| rewrite IHd ..]; reflexivity.
Qed.

(** What [str] prints has no slash in it, so it is the text before the
    first slash of the number built from it. *)
Lemma split_head_str (n : Z) (rest : string) :
  split_head "/" (Py.str n ++ "/" ++ rest) = Py.str n.
Proof.
  unfold Py.str, NilZero.string_of_int.
  change ("/" ++ rest) with (String "/" rest).
  destruct (Z.to_int n) as [d | d]; unfold NilZero.string_of_uint.
  - destruct d; try apply split_head_uint. reflexivity.
  - cbn [append split_head]. change (Ascii.eqb "-" "/") with false.
    cbv iota. f_equal.
    destruct d; try apply split_head_uint. reflexivity.
Qed.

Lemma str_not_empty (n : Z) : Py.str n <> EmptyString.
Proof.
  unfold Py.str, NilZero.string_of_int, NilZero.string_of_uint.
  destruct (Z.to_int n) as [d | d]; destruct d; discriminate.
Qed.

Section NumberingFacts.

Variable int_of_str : string -> option Z.

Lemma highest_number_ge (numbers : list (option string)) :
  forall highest, highest <= highest_number int_of_str numbers highest.
Proof.
  induction numbers as [| number rest IH]; intros highest; [cbn; lia |].
  cbn [highest_number]. destruct number as [[| c t] |]; try apply IH.
  destruct (int_of_str _) as [v |]; [| apply IH].
  specialize (IH (Z.max highest v)). lia.
Qed.

Lemma highest_number_mono (numbers : list (option string)) :
  forall h1 h2,
    h1 <= h2 ->
    highest_number int_of_str numbers h1 <=
    highest_number int_of_str numbers h2.
Proof.
  induction numbers as [| number rest IH]; intros h1 h2 H; [exact H |].
  cbn [highest_number]. destruct number as [[| c t] |]; try now apply IH.
  destruct (int_of_str _) as [v |]; apply IH; lia.
Qed.

(** Every number that can be read is at most the highest. *)
Lemma highest_number_bound (numbers : list (option string)) :
  forall highest text value,
    In (Some text) numbers -> text <> EmptyString ->
    int_of_str (split_head "/" text) = Some value ->
    value <= highest_number int_of_str numbers highest.
Proof.
  induction numbers as [| number rest IH]; intros highest text value Hin Hne Hv;
    [contradiction |].
  destruct Hin as [-> | Hin].
  - cbn [highest_number]. destruct text as [| c t]; [contradiction |].
    rewrite Hv. pose proof (highest_number_ge rest (Z.max highest value)). lia.
  - cbn [highest_number].
    destruct number as [[| c t] |]; try apply (IH _ text value Hin Hne Hv).
    destruct (int_of_str (split_head "/" (String c t)));
      apply (IH _ text value Hin Hne Hv).
Qed.

Lemma highest_number_app (l1 l2 : list (option string)) :
  forall highest,
    highest_number int_of_str (l1 ++ l2) highest =
    highest_number int_of_str l2 (highest_number int_of_str l1 highest).
Proof.
  induction l1 as [| number rest IH]; intros highest; [reflexivity |].
  cbn [app highest_number]. destruct number as [[| c t] |]; try apply IH.
  destruct (int_of_str _); apply IH.
Qed.

Lemma highest_number_max (numbers : list (option string)) :
  forall a b,
    highest_number int_of_str numbers (Z.max a b) =
    Z.max a (highest_number int_of_str numbers b).
Proof.
  induction numbers as [| number rest IH]; intros a b; [reflexivity |].
  cbn [highest_number]. destruct number as [[| c t] |]; try apply IH.
  destruct (int_of_str (split_head "/" (String c t))) as [v |]; [| apply IH].
  rewrite <- Z.max_assoc. apply IH.
Qed.

(** A number that can be read raises the highest to at least its value,
    wherever it stands among the others. *)
Lemma highest_number_insert (l1 l2 : list (option string)) (text : string)
  (value highest : Z) :
  text <> EmptyString ->
  int_of_str (split_head "/" text) = Some value ->
  highest_number int_of_str (l1 ++ Some text :: l2) highest =
  Z.max value (highest_number int_of_str (l1 ++ l2) highest).
Proof.
  intros Hne Hv. rewrite !highest_number_app. cbn [highest_number].
  destruct text as [| c t]; [contradiction |]. rewrite Hv.
  rewrite Z.max_comm. apply highest_number_max.
Qed.

End NumberingFacts.

Lemma int_of_digits_str (n : Z) : int_of_digits (Py.str n) = Some n.
Proof.
  unfold int_of_digits, Py.str. rewrite NilZero.isi.
  - cbn [option_map]. now rewrite DecimalZ.of_to.
  - destruct n; cbn; try discriminate.
    intros H. injection H as H.
    now apply DecimalPos.Unsigned.to_uint_nonnil in H.
  - destruct n; cbn; try discriminate.
    intros H. injection H as H.
    now apply DecimalPos.Unsigned.to_uint_nonnil in H.
Qed.

Section NumberingProperties.

Variable int_of_str : string -> option Z.

(** For a valid issue date before December 9999 the window is its own
    month. *)
Lemma month_bounds_own_month (issue_date : date) :
  Date.valid issue_date ->
  Date.year issue_date * 12 + Date.month issue_date < 9999 * 12 + 12 ->
  exists start end_,
    _month_bounds issue_date 0 = Ok (start, end_) /\
    forall d,
      Date.valid d ->
      (Date.leb start d && Date.ltb d end_ = true <-> same_month d issue_date).
Proof.
  intros Hv Hmax.
  pose proof (date_new_inv _ _ _ _ Hv) as [_ [Hy [Hm _]]].
  assert (Ht : _shift_month (Date.year issue_date) (Date.month issue_date) 0 =
               (Date.year issue_date, Date.month issue_date))
    by (apply shift_month_unique; lia).
  pose proof (month_bounds_window_facts issue_date 0 Hv) as H.
  cbv zeta in H. rewrite Ht in H. cbn [fst snd] in H.
  destruct (H ltac:(lia) ltac:(lia)) as [Hb [_ [Hw _]]].
  do 2 eexists. split; [exact Hb |]. exact Hw.
Qed.

(** X9: for a valid issue date before December 9999 the number returned is
    [n/month/year] with the month and year of the issue date, [n] is at least
    1, and [n] is greater than the leading integer of every document of the
    same type issued in the same month, as far as [int] can read it: the
    number is new in its month. *)
Theorem next_number_is_fresh (db : list InvoiceRow) (document_type : string)
  (issue_date : date) :
  Date.valid issue_date ->
  Date.year issue_date * 12 + Date.month issue_date < 9999 * 12 + 12 ->
  exists n,
    _next_document_number int_of_str db document_type issue_date =
      Ok (Py.str n ++ "/" ++ Py.str (Date.month issue_date) ++ "/" ++
          Py.str (Date.year issue_date)) /\
    1 <= n /\
    forall row text value,
      In row db ->
      inv_document_type row = document_type ->
      Date.valid (inv_issue_date row) ->
      same_month (inv_issue_date row) issue_date ->
      inv_number row = Some text -> text <> EmptyString ->
      int_of_str (split_head "/" text) = Some value ->
      value < n.
Proof.
  intros Hv Hmax.
  destruct (month_bounds_own_month issue_date Hv Hmax)
    as [start [end_ [Hb Hw]]].
  unfold _next_document_number. rewrite Hb. cbn [bind].
  eexists. split; [reflexivity |]. split.
  - pose proof (highest_number_ge int_of_str
                  (numbers_in_month db document_type start end_) 0). lia.
  - intros row text value Hin Ht Hd Hs Hn Hne Hi.
    enough (value <= highest_number int_of_str
                       (numbers_in_month db document_type start end_) 0)
      by lia.
    apply (highest_number_bound int_of_str _ 0 text value); try assumption.
    unfold numbers_in_month. rewrite <- Hn. apply in_map.
    apply filter_In. split; [exact Hin |].
    apply (Hw _ Hd) in Hs. rewrite Ht, String.eqb_refl. exact Hs.
Qed.

(** X10: the numbers of a month count on.  When [int] reads back what [str]
    prints, recording a document of that type and date under the number just
    returned makes the next number returned one higher, wherever the new row
    stands in the table. *)
Theorem next_number_counts_on (db1 db2 : list InvoiceRow)
  (document_type : string) (issue_date : date) (number : string) :
  (forall k, int_of_str (Py.str k) = Some k) ->
  Date.valid issue_date ->
  _next_document_number int_of_str (db1 ++ db2) document_type issue_date =
    Ok number ->
  let row := {| inv_document_type := document_type;
                inv_number := Some number;
                inv_issue_date := issue_date |} in
  exists n,
    number = Py.str n ++ "/" ++ Py.str (Date.month issue_date) ++ "/" ++
             Py.str (Date.year issue_date) /\
    _next_document_number int_of_str (db1 ++ row :: db2) document_type
      issue_date =
      Ok (Py.str (n + 1) ++ "/" ++ Py.str (Date.month issue_date) ++ "/" ++
          Py.str (Date.year issue_date)).
Proof.
  intros Hint Hv Hnum. cbv zeta.
  unfold _next_document_number in *.
  destruct (_month_bounds issue_date 0) as [[start end_] |] eqn:Hb;
    [| discriminate].
  cbn [bind] in *. injection Hnum as <-.
  set (h := highest_number int_of_str
              (numbers_in_month (db1 ++ db2) document_type start end_) 0).
  exists (h + 1). split; [reflexivity |]. do 2 f_equal.
  (* the new row passes the test of the query *)
  assert (Hrange : Date.year issue_date * 12 + Date.month issue_date
                   < 9999 * 12 + 12).
  { pose proof (date_new_inv _ _ _ _ Hv) as [_ [Hy [Hm _]]].
    destruct (Z_lt_le_dec (Date.year issue_date * 12 + Date.month issue_date)
                (9999 * 12 + 12)) as [H | H]; [exact H |].
    assert (Date.year issue_date = 9999 /\ Date.month issue_date = 12)
      as [Hy9 Hm12] by lia.
    destruct issue_date as [y m d]. cbn in Hy9, Hm12. subst.
    change (_month_bounds (Date.mk 9999 12 d) 0) with
      (@Raise (date * date) ValueError) in Hb.
    discriminate Hb. }
  destruct (month_bounds_own_month issue_date Hv Hrange)
    as [start' [end' [Hb' Hw]]].
  rewrite Hb in Hb'. injection Hb' as <- <-.
  assert (Hin : Date.leb start issue_date && Date.ltb issue_date end_ = true).
  { apply (Hw _ Hv). now split. }
  unfold numbers_in_month in *.
  rewrite filter_app, map_app. cbn [filter].
  cbn [inv_document_type inv_issue_date]. rewrite String.eqb_refl.
  cbn [andb]. rewrite Hin. cbn [map inv_number].
  rewrite (highest_number_insert int_of_str _ _ _ (h + 1) 0).
  - rewrite <- map_app, <- filter_app. fold h. f_equal. lia.
  - intros E. destruct (Py.str (h + 1)) eqn:F; [| discriminate E].
    now apply (str_not_empty (h + 1)).
  - match goal with
    | |- context [Py.str (h + 1) ++ String "/" ?r] =>
        change (Py.str (h + 1) ++ String "/" r)
          with (Py.str (h + 1) ++ "/" ++ r)
    end.
    rewrite split_head_str. apply Hint.
Qed.

(** X11: the numbering starts again every month and for every type: when
    no document of the given type was issued in the month of the issue date,
    the number is [1/month/year], whatever else the table holds. *)
Theorem next_number_starts_at_one (db : list InvoiceRow)
  (document_type : string) (issue_date : date) :
  Date.valid issue_date ->
  Date.year issue_date * 12 + Date.month issue_date < 9999 * 12 + 12 ->
  (forall row, In row db -> Date.valid (inv_issue_date row)) ->
  (forall row,
      In row db -> inv_document_type row = document_type ->
      ~ same_month (inv_issue_date row) issue_date) ->
  _next_document_number int_of_str db document_type issue_date =
    Ok ("1" ++ "/" ++ Py.str (Date.month issue_date) ++ "/" ++
        Py.str (Date.year issue_date)).
Proof.
  intros Hv Hmax Hvalid Hnone.
  destruct (month_bounds_own_month issue_date Hv Hmax)
    as [start [end_ [Hb Hw]]].
  unfold _next_document_number. rewrite Hb. cbn [bind].
  enough (Hf : numbers_in_month db document_type start end_ = []).
  { rewrite Hf. reflexivity. }
  unfold numbers_in_month.
  enough (Hf : filter
                 (fun row =>
                    String.eqb (inv_document_type row) document_type
                    && Date.leb start (inv_issue_date row)
                    && Date.ltb (inv_issue_date row) end_) db = []).
  { now rewrite Hf. }
  induction db as [| row rest IH]; [reflexivity |].
  cbn [filter].
  destruct (String.eqb (inv_document_type row) document_type) eqn:Et.
  - apply String.eqb_eq in Et.
    destruct (Date.leb start (inv_issue_date row)
              && Date.ltb (inv_issue_date row) end_) eqn:Ew.
    + exfalso. apply (Hnone row (or_introl eq_refl) Et).
      apply Hw; [apply Hvalid; now left | exact Ew].
    + cbn [andb]. rewrite Ew.
      apply IH; intros; [apply Hvalid | apply Hnone]; try right; assumption.
  - cbn [andb]. apply IH; intros; [apply Hvalid | apply Hnone];
      try right; assumption.
Qed.

End NumberingProperties.

Lemma next_number_is_fresh_witness :
  exists n,
    _next_document_number int_of_digits
      [ {| inv_document_type := "faktura"; inv_number := Some "7/3/2024";
           inv_issue_date := Date.mk 2024 3 5 |} ]
      "faktura" (Date.mk 2024 3 31) =
      Ok (Py.str n ++ "/" ++ Py.str 3 ++ "/" ++ Py.str 2024) /\ 1 <= n.
Proof.
  destruct (next_number_is_fresh int_of_digits
              [ {| inv_document_type := "faktura";
                   inv_number := Some "7/3/2024";
                   inv_issue_date := Date.mk 2024 3 5 |} ]
              "faktura" (Date.mk 2024 3 31) eq_refl eq_refl)
    as [n [H1 [H2 _]]].
  exists n. split; assumption.
Defined.

Lemma next_number_counts_on_witness :
  exists n,
    "8/3/2024" = Py.str n ++ "/" ++ Py.str 3 ++ "/" ++ Py.str 2024 /\
    _next_document_number int_of_digits
      ([ {| inv_document_type := "faktura"; inv_number := Some "7/3/2024";
            inv_issue_date := Date.mk 2024 3 5 |} ] ++
       {| inv_document_type := "faktura"; inv_number := Some "8/3/2024";
          inv_issue_date := Date.mk 2024 3 31 |} :: [])
      "faktura" (Date.mk 2024 3 31) =
      Ok (Py.str (n + 1) ++ "/" ++ Py.str 3 ++ "/" ++ Py.str 2024).
Proof.
  exact (next_number_counts_on int_of_digits
           [ {| inv_document_type := "faktura"; inv_number := Some "7/3/2024";
                inv_issue_date := Date.mk 2024 3 5 |} ] []
           "faktura" (Date.mk 2024 3 31) "8/3/2024"
           int_of_digits_str eq_refl eq_refl).
Defined.

Lemma next_number_starts_at_one_witness :
  _next_document_number int_of_digits
    [ {| inv_document_type := "paragon"; inv_number := Some "7/3/2024";
         inv_issue_date := Date.mk 2024 3 5 |} ]
    "faktura" (Date.mk 2024 3 31) =
    Ok ("1" ++ "/" ++ Py.str 3 ++ "/" ++ Py.str 2024).
Proof.
  refine (next_number_starts_at_one int_of_digits _ "faktura"
            (Date.mk 2024 3 31) eq_refl eq_refl _ _).
  - intros row [<- | []]. reflexivity.
  - intros row [<- | []] H. discriminate H.
Defined.

(** * Currency formatting *)

Lemma str_replace_app (old : ascii) (new a b : string) :
  str_replace old new (a ++ b) = str_replace old new a ++ str_replace old new b.
Proof.
  induction a as [| c r IH]; [reflexivity |]. cbn [append str_replace].
  destruct (Ascii.eqb c old); rewrite IH;
    [now rewrite string_app_assoc | reflexivity].
Qed.

Lemma str_replace_lacks (old : ascii) (new s : string) :
  lacks old s = true -> str_replace old new s = s.
Proof.
  induction s as [| c r IH]; [reflexivity |]. cbn [lacks str_replace].
  destruct (Ascii.eqb c old); [discriminate |]. cbn [negb andb].
  intros H. now rewrite IH.
Qed.

Lemma lacks_app (c : ascii) (a b : string) :
  lacks c (a ++ b) = lacks c a && lacks c b.
Proof.
  induction a as [| x r IH]; [reflexivity |]. cbn [append lacks].
  now rewrite IH, andb_assoc.
Qed.

Lemma lacks_thousands (c sep : ascii) (s : string) :
  Ascii.eqb sep c = false -> lacks c s = true ->
  lacks c (thousands sep s) = true.
Proof.
  intros Hsep. induction s as [| x r IH]; [reflexivity |].
  cbn [lacks thousands]. intros H. apply andb_prop in H as [Hx Hr].
  destruct ((0 <? String.length r)%nat && (String.length r mod 3 =? 0)%nat);
    cbn [lacks]; rewrite Hx, ?Hsep, IH by exact Hr; reflexivity.
Qed.

(** Replacing the separator of a grouped number by another character is
    grouping with that character. *)
Lemma str_replace_thousands (old new : ascii) (s : string) :
  lacks old s = true ->
  str_replace old (String new EmptyString) (thousands old s) = thousands new s.
Proof.
  induction s as [| x r IH]; [reflexivity |].
  cbn [lacks thousands]. intros H. apply andb_prop in H as [Hx Hr].
  apply negb_true_iff in Hx.
  destruct ((0 <? String.length r)%nat && (String.length r mod 3 =? 0)%nat);
    cbn [str_replace append]; rewrite Hx, ?Ascii.eqb_refl; cbn [append];
    now rewrite IH.
Qed.

(** The three-step replacement of [pl_currency] and the two-step one of
    [_format_currency] give the same text, provided the text has no "X". *)
Lemma replace_chains_agree (s : string) :
  lacks "X" s = true ->
  str_replace "X" " " (str_replace "." "," (str_replace "," "X" s)) =
  str_replace "." "," (str_replace "," " " s).
Proof.
  induction s as [| c r IH]; [reflexivity |]. cbn [lacks]. intros H.
  apply andb_prop in H as [Hx Hr]. apply negb_true_iff in Hx.
  specialize (IH Hr). cbn [str_replace].
  destruct (Ascii.eqb c ",") eqn:Ec.
  - cbn [append str_replace]. change (Ascii.eqb "X" ".") with false.
    change (Ascii.eqb " " ".") with false. cbv iota. cbn [str_replace].
    change (Ascii.eqb "X" "X") with true. cbv iota. cbn [append].
    now rewrite IH.
  - cbn [str_replace]. destruct (Ascii.eqb c ".") eqn:Ed.
    + cbn [append str_replace]. change (Ascii.eqb "," "X") with false.
      cbv iota. now rewrite IH.
    + cbn [str_replace]. rewrite Hx. now rewrite IH.
Qed.

Lemma uint_lacks (c : ascii) (d : Decimal.uint) :
  (Z.of_nat (nat_of_ascii c) < 48 \/ 57 < Z.of_nat (nat_of_ascii c)) ->
  lacks c (NilEmpty.string_of_uint d) = true.
Proof.
  intros Hc.
  assert (Hd : forall x : ascii,
             48 <= Z.of_nat (nat_of_ascii x) <= 57 -> Ascii.eqb x c = false).
  { intros x Hx. apply Ascii.eqb_neq. intros ->. lia. }
  induction d; cbn [NilEmpty.string_of_uint lacks]; [reflexivity | ..];
    rewrite IHd, Hd by (cbn; lia); reflexivity.
Qed.

(** What [str] prints for a number that is not negative holds nothing but
    digits. *)
Lemma str_lacks (c : ascii) (n : Z) :
  0 <= n ->
  (Z.of_nat (nat_of_ascii c) < 48 \/ 57 < Z.of_nat (nat_of_ascii c)) ->
  lacks c (Py.str n) = true.
Proof.
  intros Hn Hc. unfold Py.str, NilZero.string_of_int.
  destruct n as [| p | p]; [| | lia]; cbn [Z.to_int].
  - exact (uint_lacks c (Decimal.D0 Decimal.Nil) Hc).
  - unfold NilZero.string_of_uint.
    pose proof (uint_lacks c (Pos.to_uint p) Hc) as H.
    destruct (Pos.to_uint p) eqn:E; try exact H.
    now apply DecimalPos.Unsigned.to_uint_nonnil in E.
Qed.

Lemma format_02d_plain_all :
  forallb (fun n => lacks "," (Py.format_02d n) && lacks "." (Py.format_02d n)
                    && lacks "X" (Py.format_02d n))
          (map Z.of_nat (seq 0 100)) = true.
Proof. vm_compute. reflexivity. Qed.

Lemma format_02d_plain (n : Z) :
  0 <= n < 100 ->
  lacks "," (Py.format_02d n) = true /\ lacks "." (Py.format_02d n) = true /\
  lacks "X" (Py.format_02d n) = true.
Proof.
  intros Hn.
  assert (Hin : In n (map Z.of_nat (seq 0 100))).
  { apply in_map_iff. exists (Z.to_nat n). split; [lia |]. apply in_seq. lia. }
  pose proof (proj1 (forallb_forall _ _) format_02d_plain_all _ Hin) as H.
  cbv beta in H. apply andb_prop in H as [H H3]. apply andb_prop in H as [H1 H2].
  now repeat split.
Qed.

Lemma rescale_half_even_fixed (c : N) :
  rescale_half_even c (-2) (-2) = c.
Proof.
  unfold rescale_half_even. rewrite Z.leb_refl, Z.sub_diag.
  change (10 ^ 0) with 1. rewrite Z.mul_1_r. apply N2Z.id.
Qed.

(** The text [f"{value:,.2f}"] of a quantized value. *)
Lemma format_comma_2f_cents (s : bool) (c : N) :
  format_comma_2f (Finite s c (-2)) =
  (if s then "-" else EmptyString) ++
  thousands "," (Py.str (Z.of_N c / 100)) ++ "." ++
  Py.format_02d (Z.of_N c mod 100).
Proof. unfold format_comma_2f. now rewrite rescale_half_even_fixed. Qed.

Lemma format_comma_2f_lacks_X (value : Decimal) :
  (forall s c e, value = Finite s c e -> e = -2) ->
  lacks "X" (format_comma_2f value) = true.
Proof.
  intros He. destruct value as [s c e | s |].
  - rewrite (He s c e eq_refl). rewrite format_comma_2f_cents.
    pose proof (N2Z.is_nonneg c) as Hc.
    pose proof (Z.div_pos (Z.of_N c) 100 Hc ltac:(lia)) as Hz.
    pose proof (Z.mod_pos_bound (Z.of_N c) 100 ltac:(lia)) as Hg.
    destruct (format_02d_plain _ Hg) as [_ [_ H3]].
    rewrite !lacks_app, H3.
    rewrite lacks_thousands;
      [| reflexivity | apply str_lacks; [exact Hz | cbn; lia]].
    now destruct s.
  - now destruct s.
  - reflexivity.
Qed.

Lemma quantize_exponent (value quantized : Decimal) :
  quantize value (-2) = Ok quantized ->
  forall s c e, quantized = Finite s c e -> e = -2.
Proof.
  intros Hq s c e ->. destruct value as [s0 c0 e0 | s0 |].
  - apply quantize_cents_inv in Hq as [Hq _]. now injection Hq.
  - discriminate Hq.
  - discriminate Hq.
Qed.

(** X12: the template filter [pl_currency], [_format_currency] as the
    module ends up binding it, and the earlier binding built on
    [_format_currency_plain] return the same text, or raise the same
    exception, for every [Decimal] and every [int]; for [None] the filter
    returns what the others return for 0. *)
Theorem currency_formatters_agree (value : Amount) :
  pl_currency (Some value) = _format_currency value /\
  _format_currency_on_plain value = _format_currency value /\
  pl_currency None = _format_currency (AmountInt 0).
Proof.
  split; [| split; [| reflexivity]].
  - unfold pl_currency, _format_currency.
    destruct (quantize (as_decimal value) (-2)) as [q | x] eqn:Hq;
      [| reflexivity].
    cbn [bind]. rewrite replace_chains_agree; [reflexivity |].
    apply format_comma_2f_lacks_X. exact (quantize_exponent _ _ Hq).
  - unfold _format_currency_on_plain, _format_currency_plain,
      _normalize_decimal, _format_currency.
    destruct (quantize (as_decimal value) (-2)) as [q | x]; reflexivity.
Qed.

(** The printed amount of a quantizable decimal: the sign, the whole part
    in groups of three separated by spaces, a comma, the two digits of the
    grosze, and the currency sign. *)
Lemma format_currency_finite (s : bool) (c : N) (e : Z) (q : Decimal) :
  quantize (Finite s c e) (-2) = Ok q ->
  _format_currency (AmountDecimal (Finite s c e)) =
  Ok ((if s then "-" else EmptyString) ++
      thousands " " (Py.str (cents c e / 100)) ++ "," ++
      two_digits (cents c e mod 100) ++ " zł").
Proof.
  intros Hq. destruct (quantize_cents_inv _ _ _ _ Hq) as [-> _].
  unfold _format_currency. cbn [as_decimal]. rewrite Hq. cbn [bind].
  rewrite format_comma_2f_cents. fold (cents c e).
  pose proof (cents_nonneg c e) as Hc.
  pose proof (Z.div_pos (cents c e) 100 Hc ltac:(lia)) as Hz.
  pose proof (Z.mod_pos_bound (cents c e) 100 ltac:(lia)) as Hg.
  destruct (format_02d_plain _ Hg) as [G1 [G2 _]].
  rewrite <- (format_02d_two_digits _ Hg).
  set (digits := Py.str (cents c e / 100)).
  assert (D1 : lacks "," digits = true)
    by (apply str_lacks; [exact Hz | cbn; lia]).
  assert (D2 : lacks "." digits = true)
    by (apply str_lacks; [exact Hz | cbn; lia]).
  rewrite !str_replace_app.
  rewrite (str_replace_thousands "," " " digits D1).
  rewrite (str_replace_lacks "," _ _ G1).
  rewrite (str_replace_lacks "." _ (thousands " " digits))
    by (apply lacks_thousands; [reflexivity | exact D2]).
  rewrite (str_replace_lacks "." _ _ G2).
  f_equal. destruct s; cbn; now rewrite !string_app_assoc.
Qed.

(** X13: the printed total and the amount in words agree to the grosz.
    For a non-negative amount that can be quantized, [_format_currency]
    prints the whole part [z] in groups of three, a comma and the two digits
    of [g], and the converter spells the whole part [z] and shows the same
    two digits of [g], where [z] and [g] are the quotient and the remainder
    by 100 of the amount in grosze, rounded half up. *)
Theorem printed_total_matches_words (c : N) (e : Z) (q : Decimal) :
  quantize (Finite false c e) (-2) = Ok q ->
  let rounded := round_half_up (to_Q false c e * inject_Z 100) in
  let zloty := rounded / 100 in
  let grosze := rounded mod 100 in
  _format_currency (AmountDecimal (Finite false c e)) =
    Ok (thousands " " (Py.str zloty) ++ "," ++ two_digits grosze ++ " zł") /\
  exists w,
    whole_words module_globals zloty = Ok w /\
    amountToWords (Finite false c e) =
      Ok (w ++ ", " ++ two_digits grosze ++ " " ++
          Second._declension grosze First._GROSZ_FORMS).
Proof.
  intros Hq. cbv zeta. rewrite <- cents_round_half_up. split.
  - exact (format_currency_finite false c e q Hq).
  - destruct (number_to_words_finite _ _ _ _ Hq) as [w [Hw [_ Hr]]].
    cbn [signed] in Hw, Hr. exists w. split; [exact Hw |].
    rewrite Hr. unfold grosze_part.
    rewrite format_02d_two_digits; [reflexivity |].
    apply Z.mod_pos_bound. lia.
Qed.

Lemma printed_total_matches_words_witness :
  _format_currency (AmountDecimal (Finite false 1234567895 (-3))) =
    Ok (thousands " "
          (Py.str (round_half_up
                     (to_Q false 1234567895 (-3) * inject_Z 100) / 100)) ++
        "," ++
        two_digits (round_half_up
                      (to_Q false 1234567895 (-3) * inject_Z 100) mod 100) ++
        " zł").
Proof.
  exact (proj1 (printed_total_matches_words 1234567895 (-3)
                  (Finite false 123456790 (-2)) eq_refl)).
Defined.

Example printed_total_example :
  _format_currency (AmountDecimal (dec false 1234567895 (-3))) =
    Ok "1 234 567,90 zł" /\
  amountToWords (dec false 1234567895 (-3)) =
    Ok "milion dwieście trzydzieści cztery tysiące pięćset sześćdziesiąt siedem złotych, 90 groszy".
Proof. split; reflexivity. Qed.

(** * Month names *)

(** X14: [_month_name_pl] names the months 1 to 12 and puts the year after
    the name.  A month from -11 to 0 raises nothing: the index wraps around,
    so that month 0 is named like month 12.  Any other month raises
    IndexError. *)
Theorem month_name_bounds (year month : Z) (capitalize : bool) :
  (1 <= month <= 12 ->
   exists name,
     nth_error MONTH_NAMES_PL (Z.to_nat (month - 1)) = Some name /\
     _month_name_pl year month capitalize =
     Ok ((if capitalize then str_capitalize name else name) ++ " " ++
         Py.str year)) /\
  (-11 <= month <= 0 ->
   _month_name_pl year month capitalize =
   _month_name_pl year (month + 12) capitalize) /\
  (month < -11 \/ 12 < month ->
   _month_name_pl year month capitalize = Raise IndexError).
Proof.
  split; [| split].
  - intros Hm.
    assert (Hs : month = 1 \/ month = 2 \/ month = 3 \/ month = 4 \/
                 month = 5 \/ month = 6 \/ month = 7 \/ month = 8 \/
                 month = 9 \/ month = 10 \/ month = 11 \/ month = 12) by lia.
    repeat (destruct Hs as [-> | Hs];
            [eexists; split; reflexivity |]).
    subst month. eexists; split; reflexivity.
  - intros Hm.
    assert (Hs : month = -11 \/ month = -10 \/ month = -9 \/ month = -8 \/
                 month = -7 \/ month = -6 \/ month = -5 \/ month = -4 \/
                 month = -3 \/ month = -2 \/ month = -1 \/ month = 0) by lia.
    repeat (destruct Hs as [-> | Hs]; [reflexivity |]).
    subst month. reflexivity.
  - intros Hm. unfold _month_name_pl, Py.index.
    change (Z.of_nat (List.length MONTH_NAMES_PL)) with 12.
    destruct (month - 1 <? 0) eqn:E.
    + apply Z.ltb_lt in E.
      destruct (month - 1 + 12 <? 0) eqn:F; [reflexivity |].
      apply Z.ltb_ge in F. lia.
    + apply Z.ltb_ge in E.
      destruct (month - 1 <? 0) eqn:F; [apply Z.ltb_lt in F; lia |].
      destruct (12 <=? month - 1) eqn:G; [reflexivity |].
      apply Z.leb_gt in G. lia.
Qed.

Lemma month_name_bounds_witness :
  _month_name_pl 2024 0 true = _month_name_pl 2024 (0 + 12) true /\
  _month_name_pl 2024 13 true = Raise IndexError.
Proof.
  split.
  - refine (proj1 (proj2 (month_name_bounds 2024 0 true)) _). lia.
  - refine (proj2 (proj2 (month_name_bounds 2024 13 true)) _). lia.
Defined.

Example month_name_examples :
  _month_name_pl 2024 3 true = Ok "Marzec 2024" /\
  _month_name_pl 2024 10 false = Ok "październik 2024" /\
  _month_name_pl 2024 0 true = Ok "Grudzień 2024".
Proof. repeat split. Qed.

(** * The phrase depends on the rounded amount only *)

(** X15: two decimals that round to the same number of grosze and have the
    same sign get the same result from the converter, the same phrase or the
    same exception, however their digits and exponents are written (10.5,
    10.50 and 10.499 alike); and when they round to zero the sign does not
    matter either. *)
Theorem phrase_depends_on_rounded_amount
  (s1 s2 : bool) (c1 c2 : N) (e1 e2 : Z) :
  cents c1 e1 = cents c2 e2 ->
  s1 = s2 \/ cents c1 e1 = 0 ->
  amountToWords (Finite s1 c1 e1) = amountToWords (Finite s2 c2 e2).
Proof.
  intros Hc Hs.
  destruct (quantize_cents_domain s1 c1 e1) as [Hok1 Herr1].
  destruct (quantize_cents_domain s2 c2 e2) as [Hok2 Herr2].
  destruct (Z_lt_le_dec (cents c1 e1) (10 ^ 28)) as [H | H].
  - specialize (Hok1 H). rewrite Hc in H. specialize (Hok2 H).
    destruct (number_to_words_finite _ _ _ _ Hok1) as [w1 [Hw1 [_ Hr1]]].
    destruct (number_to_words_finite _ _ _ _ Hok2) as [w2 [Hw2 [_ Hr2]]].
    rewrite Hr1, Hr2. rewrite <- Hc in *.
    assert (Hq : signed s1 (cents c1 e1 / 100) = signed s2 (cents c1 e1 / 100)
                 /\ signed s1 (cents c1 e1 mod 100) =
                    signed s2 (cents c1 e1 mod 100)).
    { destruct Hs as [-> | Hz]; [now split |].
      rewrite Hz. now destruct s1, s2. }
    destruct Hq as [Hq1 Hq2]. rewrite <- Hq1 in Hw2. rewrite <- Hq2.
    rewrite Hw1 in Hw2. injection Hw2 as <-. reflexivity.
  - pose proof (number_to_words_raises module_globals _ _ (Herr1 H)) as R1.
    rewrite Hc in H.
    pose proof (number_to_words_raises module_globals _ _ (Herr2 H)) as R2.
    unfold amountToWords. now rewrite R1, R2.
Qed.

Lemma phrase_depends_on_rounded_amount_witness :
  amountToWords (Finite false 105 (-1)) =
  amountToWords (Finite false 10499 (-3)).
Proof.
  exact (phrase_depends_on_rounded_amount false false 105 10499 (-1) (-3)
           eq_refl (or_introl eq_refl)).
Defined.

(** * Prefilling the item form *)

Lemma prefill_loop_spec (rows : list (string * string * string)) :
  forall prefill row,
    In row (prefill_loop rows prefill) <->
    In row prefill \/
    (pf_description row <> EmptyString /\
     In (pf_description row, pf_quantity row, pf_gross_price row) rows).
Proof.
  induction rows as [| [[d q] p] rest IH]; intros prefill row.
  - cbn. tauto.
  - cbn [prefill_loop]. destruct d as [| c t].
    + rewrite IH. cbn [In]. split; [tauto |].
      intros [H | [Hne [H | H]]]; [tauto | | tauto].
      injection H as H _ _. congruence.
    + rewrite IH, in_app_iff. cbn [In]. split.
      * intros [[H | [<- | []]] | [Hne H]]; [tauto | | tauto].
        right. cbn. split; [discriminate | now left].
      * intros [H | [Hne [H | H]]]; [tauto | | tauto].
        left. right. left. destruct row as [d' q' p']. cbn in H.
        now injection H as <- <- <-.
Qed.

Lemma zip3_spec (a : list string) :
  forall b c x y z,
    In (x, y, z) (zip3 a b c) <->
    exists i, nth_error a i = Some x /\ nth_error b i = Some y /\
              nth_error c i = Some z.
Proof.
  induction a as [| x0 a IH]; intros b c x y z.
  - cbn. split; [contradiction |]. intros [[| i] [H _]]; discriminate H.
  - destruct b as [| y0 b]; [| destruct c as [| z0 c]].
    + cbn. split; [contradiction |].
      intros [[| i] [_ [H _]]]; discriminate H.
    + cbn. split; [contradiction |].
      intros [[| i] [_ [_ H]]]; discriminate H.
    + cbn [zip3 In]. rewrite IH. split.
      * intros [H | [i Hi]].
        -- injection H as <- <- <-. now exists 0%nat.
        -- now exists (S i).
      * intros [[| i] [H1 [H2 H3]]]; cbn in H1, H2, H3.
        -- left. congruence.
        -- right. now exists i.
Qed.

(** X16: a prefilled row is exactly a line of the form that has a
    description: the row holds the description, the quantity and the price
    found at one and the same position of the three lists, the price list
    being [item_unit_price[]] only when [item_gross_price[]] is empty.  So no
    row has an empty description, no row mixes positions, and positions
    beyond the shortest list give no row. *)
Theorem prefill_rows_are_form_lines (form : ItemForm) (row : PrefillRow) :
  let prices :=
    match item_gross_price form with
    | [] => item_unit_price form
    | _ => item_gross_price form
    end in
  In row (_prefill_from_request form) <->
  pf_description row <> EmptyString /\
  exists i,
    nth_error (item_description form) i = Some (pf_description row) /\
    nth_error (item_quantity form) i = Some (pf_quantity row) /\
    nth_error prices i = Some (pf_gross_price row).
Proof.
  cbv zeta. unfold _prefill_from_request. rewrite prefill_loop_spec.
  cbn [In]. rewrite zip3_spec.
  destruct (item_gross_price form); tauto.
Qed.

Example prefill_example :
  _prefill_from_request
    {| item_description := ["montaż"; EmptyString; "serwis"; "dojazd"];
       item_quantity := ["1"; "2"; "3"];
       item_gross_price := [];
       item_unit_price := ["10,00"; "20,00"; "30,00"; "40,00"] |} =
  [ {| pf_description := "montaż"; pf_quantity := "1";
       pf_gross_price := "10,00" |};
    {| pf_description := "serwis"; pf_quantity := "3";
       pf_gross_price := "30,00" |} ].
Proof. reflexivity. Qed.
